(** * The regression notebook: preprocessing and training history

    A shallow embedding of the two locally written pieces of
    [4_regression.ipynb]: the function [split_and_preprocess] and the Keras
    callback class [TrainingHistory].

    Numbers.  The notebook computes in floating point, in two places.

    The split point [int(data.shape[0] * train_fraction)] is a product of
    Python floats.  It decides which row goes where, so it is taken as
    IEEE 754 binary64 has it: [train_fraction] is a double (a real, an
    infinity or nan), the row count is converted to a double, the product is
    rounded to the nearest double, ties to even, and overflows to an
    infinity; [int] truncates and refuses an infinity and nan.

    The arithmetic of numpy on the entries of the arrays (mean, std,
    subtraction, division) is taken over the exact reals, as claim C1 asks:
    an entry is a real number or a non-finite value, rounding and overflow
    of the entries are left out, and division by zero and the mean of an
    empty slice yield a non-finite value as they do in numpy (which warns
    and goes on).  What is stated about the values of entries holds in this
    exact arithmetic.

    Arrays.  numpy arrays are objects.  A basic slice is a view onto the
    buffer of its base array, a reduction or an arithmetic expression
    allocates a new buffer, and an item assignment writes into the buffer of
    the array it is applied to.  The store below keeps the buffers, array
    objects are owners of a buffer or views into one.

    Exceptions.  A computation returns the state it leaves and either its
    result or the exception it raised.

    The callback object is its dictionary of attributes; the two lists that
    [on_train_begin] creates are referenced by nothing else in the notebook
    and are kept as the values of their attributes.                          *)

From Stdlib Require Import Reals Lra ZArith.
From stdpp Require Import gmap strings list.

(** ** The entries of arrays, as extended reals *)

(** [Some x] is the finite value [x], [None] a non-finite value (nan or an
    infinity, not told apart).  An operation with a non-finite operand gives
    a non-finite value.  (A finite number divided by an infinity is 0; in
    exact arithmetic no divisor below is an infinity: the deviation of a
    column is finite, or nan as soon as the column has a non-finite entry,
    and [sigma[0]] is 1.) *)
Abbreviation xr := (option R).

Definition xadd (a b : xr) : xr :=
  match a, b with
  | Some x, Some y => Some (x + y)%R
  | _, _ => None
  end.

Definition xsub (a b : xr) : xr :=
  match a, b with
  | Some x, Some y => Some (x - y)%R
  | _, _ => None
  end.

Definition xmul (a b : xr) : xr :=
  match a, b with
  | Some x, Some y => Some (x * y)%R
  | _, _ => None
  end.

(** True division.  The guard is on the divisor 0, where floating point gives
    nan or an infinity. *)
Definition xdiv (a b : xr) : xr :=
  match a, b with
  | Some x, Some y => if Req_dec_T y 0 then None else Some (x / y)%R
  | _, _ => None
  end.

Definition xsqrt (a : xr) : xr :=
  match a with
  | Some x => if Rlt_dec x 0 then None else Some (sqrt x)
  | None => None
  end.

(** [int(x)] of a float: truncation towards zero. *)
Definition trunc (x : R) : Z :=
  if Rle_dec 0 x then Int_part x else (- Int_part (- x))%Z.

(** ** Python floats *)

(** A double, which is what [train_fraction] is documented to be: a real
    number, an infinity or nan.  Any real is admitted in [Finite]; what is
    proved for all of them holds for those that are doubles
    ([representable] below). *)
Inductive double :=
| Finite (x : R)
| Infinity (negative : bool)
| NaN.

(** [2^e] *)
Definition pow2 (e : Z) : R := powerRZ 2 e.

(** The exponent of the unit in the last place of the double nearest to a
    real of magnitude [a]: the least [e] from -1074 (the subnormal numbers)
    to 971 with [a < 2^(e+53)], found going up from [e]. *)
Fixpoint exponent_from (fuel : nat) (e : Z) (a : R) : option Z :=
  match fuel with
  | O => None
  | S fuel =>
      if Rlt_dec a (pow2 (e + 53)) then Some e
      else exponent_from fuel (e + 1) a
  end.

Definition exponent (x : R) : option Z :=
  exponent_from 2046 (-1074) (Rabs x).

(** The integer nearest to [s]; of two that are equally near, the even
    one. *)
Definition nearest_even (s : R) : Z :=
  let f := Int_part s in
  match total_order_T (s - IZR f) (1 / 2) with
  | inleft (left _) => f
  | inleft (right _) => if Z.even f then f else (f + 1)%Z
  | inright _ => (f + 1)%Z
  end.

Definition negative (x : R) : bool := if Rlt_dec x 0 then true else false.

(** Rounding to binary64, to nearest, ties to even: the nearest multiple of
    the unit in the last place, and an infinity from [2^1024] on. *)
Definition round64 (x : R) : double :=
  match exponent x with
  | Some e =>
      let r := (IZR (nearest_even (x / pow2 e)) * pow2 e)%R in
      if Rlt_dec (Rabs r) (pow2 1024) then Finite r
      else Infinity (negative x)
  | None => Infinity (negative x)
  end.

(** [a * b] on floats *)
Definition mul64 (a b : double) : double :=
  match a, b with
  | Finite x, Finite y => round64 (x * y)
  | Finite x, Infinity s | Infinity s, Finite x =>
      if Req_dec_T x 0 then NaN else Infinity (xorb s (negative x))
  | Infinity s, Infinity t => Infinity (xorb s t)
  | NaN, _ | _, NaN => NaN
  end.

(** The reals that are doubles: [m * 2^e] with 53 bits for [m]. *)
Definition representable (y : R) : Prop :=
  ∃ m e : Z, (-1074 ≤ e ≤ 971)%Z ∧ (Z.abs m < 2 ^ 53)%Z ∧ y = (IZR m * pow2 e)%R.

(** ** Reductions of numpy, on one column *)

Definition xsum (l : list xr) : xr := foldr xadd (Some 0%R) l.

(** [mean]: the sum divided by the number of items. *)
Definition xmean (l : list xr) : xr := xdiv (xsum l) (Some (INR (length l))).

(** [std]: the root of the mean of the squared deviations from the mean
    (numpy's default, no degrees-of-freedom correction). *)
Definition xstd (l : list xr) : xr :=
  let mu := xmean l in
  xsqrt (xdiv (xsum (map (λ x, let d := xsub x mu in xmul d d) l))
              (Some (INR (length l)))).

(** ** Buffers, the store and array objects *)

Record matrix := Mat { ncols : nat; rows : list (list xr) }.

Inductive buffer :=
| Buf1 (v : list xr)
| Buf2 (m : matrix).

Abbreviation loc := nat (only parsing).
Abbreviation store := (list buffer) (only parsing).

(** A one-dimensional array: the owner of a buffer, or the view
    [base[r0:r1, c]] of a column of a two-dimensional base. *)
Inductive arr1 :=
| Own1 (l : loc)
| Col (l : loc) (r0 r1 c : nat).

(** A two-dimensional array: the owner of a buffer, or the view
    [base[r0:r1, c0:c1]]. *)
Inductive arr2 :=
| Own2 (l : loc)
| Sub (l : loc) (r0 r1 c0 c1 : nat).

Definition window {A} (lo hi : nat) (l : list A) : list A :=
  take (hi - lo) (drop lo l).

Definition column (c : nat) (rs : list (list xr)) : list xr :=
  map (λ row, default None (row !! c)) rs.

Definition read1 (a : arr1) (σ : store) : option (list xr) :=
  match a with
  | Own1 l => match σ !! l with Some (Buf1 v) => Some v | _ => None end
  | Col l r0 r1 c =>
      match σ !! l with
      | Some (Buf2 m) => Some (column c (window r0 r1 (rows m)))
      | _ => None
      end
  end.

Definition read2 (a : arr2) (σ : store) : option matrix :=
  match a with
  | Own2 l => match σ !! l with Some (Buf2 m) => Some m | _ => None end
  | Sub l r0 r1 c0 c1 =>
      match σ !! l with
      | Some (Buf2 m) =>
          Some (Mat (c1 - c0) (map (window c0 c1) (window r0 r1 (rows m))))
      | _ => None
      end
  end.

(** ** Computations on the store that may raise *)

(** The exception classes that the code below raises, and any other class by
    its name. *)
Inductive exn :=
| IndexError
| ValueError
| TypeError
| AttributeError
| OverflowError
| OtherError (class : string).

(** A computation on a state of type [S] returns the new state and either a
    result or the exception raised; an exception leaves the state as it is at
    the raise. *)
Definition St (S A : Type) : Type := S → S * (exn + A).

Definition ret {S A} (x : A) : St S A := λ σ, (σ, inr x).
Definition raise {S A} (e : exn) : St S A := λ σ, (σ, inl e).
Definition bind {S A B} (m : St S A) (k : A → St S B) : St S B :=
  λ σ, match m σ with
       | (σ', inr x) => k x σ'
       | (σ', inl e) => (σ', inl e)
       end.

(** A computation that leaves the state alone. *)
Definition lift {S A} (r : exn + A) : St S A := λ σ, (σ, r).

Notation "'do' x <- m ; k" := (bind m (λ x, k))
  (at level 10, x pattern, m at level 100, k at level 200,
   format "'[v' 'do'  x  <-  m ; '/' k ']'").

(** Computations on the store of buffers. *)
Abbreviation M := (St (list buffer)).

(** A new buffer goes to the end of the store. *)
Definition alloc (b : buffer) : M loc := λ σ, (σ ++ [b], inr (length σ)).

(** The value of an array object.  Every array object the function makes
    refers to a buffer of its own rank, so that the error here is never
    raised in a run of the function. *)
Definition load1 (a : arr1) : M (list xr) :=
  λ σ, match read1 a σ with Some v => (σ, inr v) | None => (σ, inl TypeError) end.

Definition load2 (a : arr2) : M matrix :=
  λ σ, match read2 a σ with Some m => (σ, inr m) | None => (σ, inl TypeError) end.

(** ** Indexing *)

(** A slice bound [i] on an axis of length [n]: a negative bound counts from
    the end, and the result is clipped to the axis. *)
Definition clamp (n : nat) (i : Z) : nat :=
  Z.to_nat (if (i <? 0)%Z then Z.max (Z.of_nat n + i) 0 else Z.min i (Z.of_nat n)).

(** An integer index [i] on an axis of length [n]; out of range is an
    [IndexError]. *)
Definition index (n : nat) (i : Z) : option nat :=
  if bool_decide (- Z.of_nat n ≤ i < Z.of_nat n)%Z
  then Some (Z.to_nat (if (i <? 0)%Z then Z.of_nat n + i else i))
  else None.

(** The buffer of the argument [data]; when [data] is no array at all,
    its first use, [data.shape], is an [AttributeError]. *)
Definition load (data : loc) : M buffer :=
  λ σ, match σ !! data with Some b => (σ, inr b) | None => (σ, inl AttributeError) end.

(** [data.shape[0]] *)
Definition shape0 (data : loc) : M nat :=
  do b <- load data;
  ret (match b with Buf1 v => length v | Buf2 m => length (rows m) end).

(** [data[start:stop, j]]; an omitted bound is [None].  A one-dimensional
    array has too few axes for the two indices. *)
Definition getitem_slice_index (data : loc) (start stop : option Z) (j : Z)
  : M arr1 :=
  do b <- load data;
  match b with
  | Buf1 _ => raise IndexError
  | Buf2 m =>
      let n := length (rows m) in
      let r0 := from_option (clamp n) 0 start in
      let r1 := from_option (clamp n) n stop in
      match index (ncols m) j with
      | Some c => ret (Col data r0 r1 c)
      | None => raise IndexError
      end
  end.

(** [data[start:stop, cstart:cstop]] *)
Definition getitem_slice_slice (data : loc) (start stop cstart cstop : option Z)
  : M arr2 :=
  do b <- load data;
  match b with
  | Buf1 _ => raise IndexError
  | Buf2 m =>
      let n := length (rows m) in
      let r0 := from_option (clamp n) 0 start in
      let r1 := from_option (clamp n) n stop in
      let c0 := from_option (clamp (ncols m)) 0 cstart in
      let c1 := from_option (clamp (ncols m)) (ncols m) cstop in
      ret (Sub data r0 r1 c0 c1)
  end.

(** [a[i] = x] on a one-dimensional array: the write goes to the buffer of
    [a], which for a view is the buffer of its base. *)
Definition setitem (a : arr1) (i : Z) (x : xr) : M unit :=
  do v <- load1 a;
  match index (length v) i with
  | None => raise IndexError
  | Some k =>
      λ σ,
        match a with
        | Own1 l => (<[l := Buf1 (<[k := x]> v)]> σ, inr tt)
        | Col l r0 r1 c =>
            match σ !! l with
            | Some (Buf2 m) =>
                (<[l := Buf2 (Mat (ncols m)
                    (alter (λ row, <[c := x]> row) (r0 + k) (rows m)))]> σ,
                 inr tt)
            | _ => (σ, inl TypeError)
            end
        end
  end.

(** ** Reductions along axis 0 and broadcast arithmetic *)

Definition reduce_axis0 (f : list xr → xr) (m : matrix) : list xr :=
  map (λ j, f (column j (rows m))) (seq 0 (ncols m)).

(** [a.mean(axis=0)] *)
Definition mean_axis0 (a : arr2) : M arr1 :=
  do m <- load2 a;
  do l <- alloc (Buf1 (reduce_axis0 xmean m));
  ret (Own1 l).

(** [a.std(axis=0)] *)
Definition std_axis0 (a : arr2) : M arr1 :=
  do m <- load2 a;
  do l <- alloc (Buf1 (reduce_axis0 xstd m));
  ret (Own1 l).

(** A matrix of shape (k, c) combined with a vector of shape (c',): the
    vector is applied to every row; an axis of length one is stretched. *)
Definition broadcast (op : xr → xr → xr) (m : matrix) (v : list xr)
  : option matrix :=
  if decide (length v = ncols m) then
    Some (Mat (ncols m) (map (λ row, zip_with op row v) (rows m)))
  else
    match v with
    | [y] => Some (Mat (ncols m) (map (map (λ x, op x y)) (rows m)))
    | _ =>
        if decide (ncols m = 1) then
          Some (Mat (length v)
                  (map (λ row, map (op (default None (row !! 0))) v) (rows m)))
        else None
    end.

Definition binop (op : xr → xr → xr) (a : arr2) (b : arr1) : M arr2 :=
  do m <- load2 a;
  do v <- load1 b;
  match broadcast op m v with
  | Some r => do l <- alloc (Buf2 r); ret (Own2 l)
  | None => raise ValueError
  end.

(** [a - b] and [a / b] *)
Definition sub := binop xsub.
Definition div := binop xdiv.

(** ** split_and_preprocess *)

(** The conversion of the int [n] for the product with a float: the
    nearest double; an int beyond the doubles is an [OverflowError]. *)
Definition float_of_int (n : Z) : exn + double :=
  match round64 (IZR n) with
  | Finite a => inr (Finite a)
  | _ => inl OverflowError
  end.

(** [int(x)] of a float *)
Definition int_of_float (x : double) : exn + Z :=
  match x with
  | Finite p => inr (trunc p)
  | Infinity _ => inl OverflowError
  | NaN => inl ValueError
  end.

(** [int(n * train_fraction)] *)
Definition int_of_product (n : nat) (train_fraction : double) : M Z :=
  do a <- lift (float_of_int (Z.of_nat n));
  lift (int_of_float (mul64 a train_fraction)).

(** The local variables when the [return] statement is reached. *)
Record locals := Locals {
  split_point : Z;
  train_labels : arr1;
  test_labels : arr1;
  train : arr2;
  test : arr2;
  mean : arr1;
  sigma : arr1
}.

Definition label_index : Z := (-1)%Z.

(** The body of the function down to the [return] statement. *)
Definition split_and_preprocess_body (data : loc) (train_fraction : double)
  : M locals :=
  do n <- shape0 data;
  do split_point <- int_of_product n train_fraction;
  do train_labels <- getitem_slice_index data None (Some split_point) label_index;
  do test_labels <- getitem_slice_index data (Some split_point) None label_index;
  do train <- getitem_slice_slice data None (Some split_point) None (Some label_index);
  do test <- getitem_slice_slice data (Some split_point) None None (Some label_index);
  do mean <- mean_axis0 train;
  do sigma <- std_axis0 train;
  do _ <- setitem mean 0 (Some 0%R);
  do _ <- setitem sigma 0 (Some 1%R);
  ret (Locals split_point train_labels test_labels train test mean sigma).

(** The function: the body, then the returned tuple. *)
Definition split_and_preprocess (data : loc) (train_fraction : double)
  : M (arr2 * arr1 * arr2 * arr1) :=
  do fr <- split_and_preprocess_body data train_fraction;
  do a <- sub (train fr) (mean fr);
  do train_data <- div a (sigma fr);
  do b <- sub (test fr) (mean fr);
  do test_data <- div b (sigma fr);
  ret (train_data, train_labels fr, test_data, test_labels fr).

(** ** What a caller observes *)

(** The contents of the four returned arrays in the store left by the call;
    [None] when the call raised. *)
Definition returned (r : list buffer * (exn + (arr2 * arr1 * arr2 * arr1)))
  : option (matrix * list xr * matrix * list xr) :=
  match r with
  | (σ', inr (a, b, c, d)) =>
      X ← read2 a σ'; l ← read1 b σ'; Y ← read2 c σ'; l' ← read1 d σ';
      Some (X, l, Y, l')
  | (_, inl _) => None
  end.

(** The values of [split_point], [mean] and [sigma] when the body reaches
    the [return] statement. *)
Definition statistics (r : list buffer * (exn + locals))
  : option (Z * list xr * list xr) :=
  match r with
  | (σ', inr fr) =>
      mu ← read1 (mean fr) σ'; sg ← read1 (sigma fr) σ';
      Some (split_point fr, mu, sg)
  | (_, inl _) => None
  end.

(** The values the run lemmas below are stated with: what
    [int(n * train_fraction)] gives, the number of rows of
    [data[:split_point]], the feature columns of a list of rows, the two
    statistics after the item assignments, and the two broadcast operations
    on values. *)
Definition product_int (n : nat) (f : double) : exn + Z :=
  match float_of_int (Z.of_nat n) with
  | inr a => int_of_float (mul64 a f)
  | inl e => inl e
  end.

Definition training_rows (m : matrix) (sp : Z) : nat :=
  clamp (length (rows m)) sp.

Definition features (m : matrix) (rs : list (list xr)) : matrix :=
  Mat (ncols m - 1) (map (take (ncols m - 1)) rs).

Definition train_features (m : matrix) (sp : Z) : matrix :=
  features m (take (training_rows m sp) (rows m)).

Definition test_features (m : matrix) (sp : Z) : matrix :=
  features m (drop (training_rows m sp) (rows m)).

Definition mean_values (m : matrix) (sp : Z) : list xr :=
  <[0 := Some 0%R]> (reduce_axis0 xmean (train_features m sp)).

Definition sigma_values (m : matrix) (sp : Z) : list xr :=
  <[0 := Some 1%R]> (reduce_axis0 xstd (train_features m sp)).

Definition minus (v : list xr) (x : matrix) : matrix :=
  Mat (ncols x) (map (λ row, zip_with xsub row v) (rows x)).

Definition over (v : list xr) (x : matrix) : matrix :=
  Mat (ncols x) (map (λ row, zip_with xdiv row v) (rows x)).

(** The shape the function is written for: a rectangular matrix with the
    label column and at least one feature column.  The number of rows fits
    the index type of numpy (a signed 64-bit integer), as that of every
    array does. *)
Definition well_shaped (m : matrix) : Prop :=
  2 ≤ ncols m ∧ Forall (λ row, length row = ncols m) (rows m)
  ∧ (Z.of_nat (length (rows m)) < 2 ^ 63)%Z.

(** Every entry is a finite number. *)
Definition finite (m : matrix) : Prop := Forall (Forall is_Some) (rows m).

(** ** Reference values on the reals *)

(** The sum, the mean and the variance of a list of reals, to state what the
    reductions compute on finite columns. *)
Definition Rsum (xs : list R) : R := foldr Rplus 0%R xs.
Definition Rmean (xs : list R) : R := (Rsum xs / INR (length xs))%R.
Definition Rvar (xs : list R) : R :=
  (Rsum (map (λ x, ((x - Rmean xs) * (x - Rmean xs))%R) xs) / INR (length xs))%R.

(** ** Matrices to run the function on *)

(** Four samples with the columns sex, a measurement and the label. *)
Definition example : matrix :=
  Mat 3 [[Some 0%R; Some 1%R; Some 5%R]; [Some 1%R; Some 3%R; Some 6%R];
         [Some (-1)%R; Some 5%R; Some 7%R]; [Some 0%R; Some 9%R; Some 8%R]].

(** The measurement is the same in the first two samples. *)
Definition constant_example : matrix :=
  Mat 3 [[Some 0%R; Some 1%R; Some 5%R]; [Some 1%R; Some 1%R; Some 6%R];
         [Some (-1)%R; Some 5%R; Some 7%R]; [Some 0%R; Some 9%R; Some 8%R]].

(** [example] with other samples in the last two rows. *)
Definition example_other_test : matrix :=
  Mat 3 [[Some 0%R; Some 1%R; Some 5%R]; [Some 1%R; Some 3%R; Some 6%R];
         [Some 1%R; Some 4%R; Some 2%R]; [Some 1%R; Some 0%R; Some 3%R]].

(** [example] with its second column in another unit, [2*x + 1]. *)
Definition example_rescaled : matrix :=
  Mat 3 [[Some 0%R; Some 3%R; Some 5%R]; [Some 1%R; Some 7%R; Some 6%R];
         [Some (-1)%R; Some 11%R; Some 7%R]; [Some 0%R; Some 19%R; Some 8%R]].

(** [example] with other labels. *)
Definition example_relabelled : matrix :=
  Mat 3 [[Some 0%R; Some 1%R; Some 1%R]; [Some 1%R; Some 3%R; Some 2%R];
         [Some (-1)%R; Some 5%R; Some 3%R]; [Some 0%R; Some 9%R; Some 4%R]].

(** Ten samples, and the double nearest to 0.7. *)
Definition ten_samples : matrix := Mat 2 (replicate 10 [Some 1%R; Some 2%R]).

Definition seven_tenths : R := (3152519739159347 / 4503599627370496)%R.

(** ** TrainingHistory *)

Module TrainingHistory.
Section Callback.
(** [V]: the Python values other than lists, among them the numbers Keras
    reports in [logs].  [append_method v x]: what the call [v.append(x)]
    does on such a value [v], which is the exception it raises (an
    [AttributeError] when [v] has no attribute [append], as a number has
    none) or the value [v] has turned into (a deque with one more item). *)
Context {V : Type} (append_method : V → V → exn + V).

Inductive pyval :=
| Val (v : V)
| List (l : list V).

(** The state is the attribute dictionary of the callback object;
    [logs] is a dictionary from names to values. *)

(** [self.name.append(x)]: the attribute has to exist; a list gets [x] as
    its last item, another value does what its own [append] does. *)
Definition append (name : string) (x : V) : St (gmap string pyval) unit :=
  λ self, match self !! name with
          | Some (List l) => (<[name := List (l ++ [x])]> self, inr tt)
          | Some (Val v) =>
              match append_method v x with
              | inr v' => (<[name := Val v']> self, inr tt)
              | inl e => (self, inl e)
              end
          | None => (self, inl AttributeError)
          end.

Definition on_train_begin (logs : gmap string V) : St (gmap string pyval) unit :=
  λ self, (<["validation_loss" := List []]> (<["loss" := List []]> self), inr tt).

Definition on_epoch_end (epoch : Z) (logs : gmap string V) : St (gmap string pyval) unit :=
  do _ <- match logs !! "loss" with
          | Some x => append "loss" x
          | None => ret tt
          end;
  match logs !! "val_loss" with
  | Some x => append "validation_loss" x
  | None => ret tt
  end.

(** The calls Keras makes during [fit]: [on_train_begin], then
    [on_epoch_end] once per epoch with that epoch's [logs]. *)
Fixpoint epochs (calls : list (Z * gmap string V)) : St (gmap string pyval) unit :=
  match calls with
  | [] => ret tt
  | (epoch, logs) :: rest => do _ <- on_epoch_end epoch logs; epochs rest
  end.

Definition training (logs0 : gmap string V) (calls : list (Z * gmap string V)) : St (gmap string pyval) unit :=
  do _ <- on_train_begin logs0; epochs calls.
End Callback.
Arguments pyval : clear implicits.
End TrainingHistory.

(** ** The call of the notebook *)

(** [split_and_preprocess(data)]: the fraction takes its default value,
    [3.0/4.0]. *)
Definition default_train_fraction : double := Finite (3 / 4)%R.

Definition split_and_preprocess_default (data : loc)
  : M (arr2 * arr1 * arr2 * arr1) :=
  split_and_preprocess data default_train_fraction.

(** A matrix that has the label column only. *)
Definition label_only_example : matrix := Mat 1 [[Some 5%R]; [Some 6%R]].

(** ** train_model and plot_history *)

(** What is asked of matplotlib, in the order of the calls.  The notebook
    draws on one axis here. *)
Inductive line_call (V : Type) :=
| LSubplots (nrows ncols : nat) (figsize : nat * nat)
| LSetXLabel (s : string)
| LSetYLabel (s : string)
| LPlot (xs : list nat) (ys : list V) (color label : string)
| LSetYLim (bottom : R)
| LLegend (loc : nat)
| LShow.
Arguments LSubplots {V}.
Arguments LSetXLabel {V}.
Arguments LSetYLabel {V}.
Arguments LPlot {V}.
Arguments LSetYLim {V}.
Arguments LLegend {V}.
Arguments LShow {V}.

Section Plotting.
(** [sequence v]: the items of a value [v] that is a sequence without being
    a list (a tuple, an array); [None] for a value that has no length, as a
    number has none. *)
Context {V : Type} (sequence : V → option (list V))
  (append_method : V → V → exn + V).

Definition emit {C} (c : C) : St (list C) unit := λ fig, (fig ++ [c], inr tt).

(** [history.name] *)
Definition getattr {S} (history : gmap string (TrainingHistory.pyval V))
  (name : string) : St S (TrainingHistory.pyval V) :=
  match history !! name with
  | Some v => ret v
  | None => raise AttributeError
  end.

(** [len(v)] *)
Definition len {S} (v : TrainingHistory.pyval V) : St S nat :=
  match v with
  | TrainingHistory.List l => ret (length l)
  | TrainingHistory.Val x =>
      match sequence x with
      | Some l => ret (length l)
      | None => raise TypeError
      end
  end.

(** [axis.plot(xs, y, color=..., label=...)]: the two arguments need the same
    length; a value without a length counts as one point. *)
Definition plot (xs : list nat) (y : TrainingHistory.pyval V)
  (color label : string) : St (list (line_call V)) unit :=
  let ys := match y with
            | TrainingHistory.List l => l
            | TrainingHistory.Val x => default [x] (sequence x)
            end in
  if decide (length xs = length ys) then emit (LPlot xs ys color label)
  else raise ValueError.

Definition plot_history (history : gmap string (TrainingHistory.pyval V))
  : St (list (line_call V)) unit :=
  do _ <- emit (LSubplots 1 1 (16, 5));
  do _ <- emit (LSetXLabel "epoch");
  do _ <- emit (LSetYLabel "loss");
  do loss <- getattr history "loss";
  do n <- len loss;
  let epochs := seq 0 n in
  do loss <- getattr history "loss";
  do _ <- plot epochs loss "C0" "loss";
  do validation_loss <- getattr history "validation_loss";
  do _ <- plot epochs validation_loss "C4" "validation loss";
  do _ <- emit (LSetYLim 0%R);
  do _ <- emit (LLegend 1);
  emit LShow.

(** [train_model]: a new [TrainingHistory] object, the state the run starts
    from, goes through [fit], which calls [on_train_begin] and then
    [on_epoch_end] with the number and the [logs] of each epoch; the object is
    what the function returns. *)
Definition train_model (logs0 : gmap string V) (epoch_logs : list (gmap string V))
  : St (gmap string (TrainingHistory.pyval V)) unit :=
  TrainingHistory.training append_method logs0
    (imap (λ i logs, (Z.of_nat i, logs)) epoch_logs).
End Plotting.

(** ** plot_bins *)

(** What [plot_bins] asks of matplotlib; the axes of the grid are numbered
    row by row, as [flatten] lays them out. *)
Inductive bins_call :=
| BSubplots (nrows ncols : nat) (figsize : nat * nat)
| BHist (axis : nat) (values : list xr) (bins : nat)
| BSetXLabel (axis : nat) (s : string)
| BSetYLabel (axis : nat) (s : string)
| BTightLayout
| BShow.

(** [enumerate(l, start)] *)
Fixpoint enumerate {A} (start : nat) (l : list A) : list (nat * A) :=
  match l with
  | [] => []
  | x :: l => (start, x) :: enumerate (S start) l
  end.

(** [for x in l: body] *)
Fixpoint for_each {S A} (body : A → St S unit) (l : list A) : St S unit :=
  match l with
  | [] => ret tt
  | x :: l => do _ <- body x; for_each body l
  end.

(** [plt.subplots(nrows, ncols, figsize=...)] followed by
    [np.array(axis).flatten()]: the number of axes of the grid; a grid
    without rows or without columns is refused. *)
Definition subplots (nrows ncols : nat) (figsize : nat * nat)
  : St (list bins_call) nat :=
  if decide (0 < nrows ∧ 0 < ncols)
  then do _ <- emit (BSubplots nrows ncols figsize); ret (nrows * ncols)
  else raise ValueError.

(** [axis[i]] on the flattened array of axes *)
Definition getitem_axis {S} (axis : nat) (i : nat) : St S nat :=
  if decide (i < axis) then ret i else raise IndexError.

(** [data[:, i]] *)
Definition getitem_all_index {S} (data : matrix) (i : nat) : St S (list xr) :=
  if decide (i < ncols data) then ret (column i (rows data))
  else raise IndexError.

Section Bins.
(** [refuses values]: whether matplotlib refuses to take the range of the
    bins from values of which some are not finite.  It does when one of them
    is an infinity and draws the rest when they are nan; the entries here do
    not tell the two apart. *)
Context (refuses : list xr → bool).

(** [ax.hist(values, bins=...)] *)
Definition hist (ax : nat) (values : list xr) (bins : nat)
  : St (list bins_call) unit :=
  if decide (Forall is_Some values) then emit (BHist ax values bins)
  else if refuses values then raise ValueError
  else emit (BHist ax values bins).

Definition plot_bins (data : matrix) (columns : list string)
  : St (list bins_call) unit :=
  let features := ncols data in
  do axis <- subplots 3 (features / 3)%nat (16, 8);
  do _ <- for_each (λ '(i, variable),
            do ax <- getitem_axis axis i;
            do values <- getitem_all_index data i;
            do _ <- hist ax values 30;
            do _ <- emit (BSetXLabel ax variable);
            emit (BSetYLabel ax "count")) (enumerate 0 columns);
  do _ <- emit BTightLayout;
  emit BShow.
End Bins.

(** The calls that draw the histograms of the given columns. *)
Definition histograms (data : matrix) (named : list (nat * string))
  : list bins_call :=
  flat_map (λ '(i, variable),
              [BHist i (column i (rows data)) 30; BSetXLabel i variable;
               BSetYLabel i "count"]) named.

(** * Properties *)

(** ** Rounding to a double *)

Section Rounding.
Local Open Scope R_scope.

Lemma pow2_pos e : 0 < pow2 e.
Proof. apply powerRZ_lt. lra. Qed.

Lemma pow2_add a b : pow2 (a + b) = pow2 a * pow2 b.
Proof. apply powerRZ_add. lra. Qed.

Lemma pow2_nonneg e : (0 ≤ e)%Z → pow2 e = IZR (2 ^ e).
Proof.
  intros H. unfold pow2. rewrite <- (Z2Nat.id e H), <- pow_powerRZ.
  by rewrite pow_IZR.
Qed.

Lemma pow2_ge_1 e : (0 ≤ e)%Z → 1 <= pow2 e.
Proof.
  intros H. rewrite pow2_nonneg by done. apply IZR_le.
  pose proof (Z.pow_pos_nonneg 2 e ltac:(lia) H). lia.
Qed.

Lemma pow2_le a b : (a ≤ b)%Z → pow2 a <= pow2 b.
Proof.
  intros H. replace b with (a + (b - a))%Z by lia. rewrite pow2_add.
  pose proof (pow2_pos a). pose proof (pow2_ge_1 (b - a) ltac:(lia)). nra.
Qed.

Lemma pow2_lt a b : (a < b)%Z → pow2 a < pow2 b.
Proof.
  intros H. replace b with (a + 1 + (b - a - 1))%Z by lia. rewrite !pow2_add.
  pose proof (pow2_pos a). pose proof (pow2_ge_1 (b - a - 1) ltac:(lia)).
  replace (pow2 1) with 2 by (unfold pow2; simpl; lra). nra.
Qed.

Lemma exponent_from_spec fuel : ∀ e a e',
  exponent_from fuel e a = Some e' →
  (e ≤ e' < e + Z.of_nat fuel)%Z ∧ a < pow2 (e' + 53)
  ∧ ((e < e')%Z → pow2 (e' + 52) <= a).
Proof.
  induction fuel as [|fuel IH]; intros e a e' H; [done|].
  cbn [exponent_from] in H. destruct (Rlt_dec a (pow2 (e + 53))) as [Hlt|Hge].
  - injection H as <-. split; [lia|]. split; [done|lia].
  - destruct (IH _ _ _ H) as (Hr & Hlt & Hlow). split; [lia|]. split; [done|].
    intros _. destruct (decide (e' = e + 1)%Z) as [->|Hne].
    + replace (e + 1 + 52)%Z with (e + 53)%Z by lia. lra.
    + apply Hlow. lia.
Qed.

Lemma exponent_from_le fuel : ∀ e a e1,
  (e ≤ e1 < e + Z.of_nat fuel)%Z → a < pow2 (e1 + 53) →
  ∃ e', exponent_from fuel e a = Some e' ∧ (e' ≤ e1)%Z.
Proof.
  induction fuel as [|fuel IH]; intros e a e1 Hr Ha; [lia|].
  cbn [exponent_from]. destruct (Rlt_dec a (pow2 (e + 53))) as [Hlt|Hge].
  - exists e. split; [done|lia].
  - assert (e ≠ e1) by (intros ->; done).
    apply IH; [lia|done].
Qed.

Lemma exponent_spec x e :
  exponent x = Some e →
  (-1074 ≤ e ≤ 971)%Z ∧ Rabs x < pow2 (e + 53)
  ∧ ((-1074 < e)%Z → pow2 (e + 52) <= Rabs x).
Proof.
  intros H. apply exponent_from_spec in H as (Hr & Hlt & Hlow).
  split; [lia|]. by split.
Qed.

Lemma exponent_le x e1 :
  (-1074 ≤ e1 ≤ 971)%Z → Rabs x < pow2 (e1 + 53) →
  ∃ e, exponent x = Some e ∧ (e ≤ e1)%Z.
Proof. intros Hr Hx. apply exponent_from_le; [lia|done]. Qed.

Lemma exponent_unique x e :
  (-1074 ≤ e ≤ 971)%Z → pow2 (e + 52) <= Rabs x < pow2 (e + 53) →
  exponent x = Some e.
Proof.
  intros Hr [Hlow Hup]. destruct (exponent_le x e Hr Hup) as (e' & He & Hle).
  rewrite He. f_equal. destruct (decide (e' = e)) as [|Hne]; [done|].
  apply exponent_spec in He as (_ & Hlt & _).
  pose proof (pow2_le (e' + 53) (e + 52) ltac:(lia)). lra.
Qed.

Lemma Int_part_le s : IZR (Int_part s) <= s < IZR (Int_part s) + 1.
Proof. destruct (base_Int_part s). lra. Qed.

Lemma nearest_even_le s B : s <= IZR B → (nearest_even s ≤ B)%Z.
Proof.
  intros H. pose proof (Int_part_le s) as [Hf Hf'].
  assert (Int_part s ≤ B)%Z by (apply le_IZR; lra).
  assert (IZR (Int_part s) < s → (Int_part s + 1 ≤ B)%Z).
  { intros Hlt. apply Zlt_le_succ, lt_IZR. lra. }
  unfold nearest_even.
  destruct (total_order_T (s - IZR (Int_part s)) (1 / 2)) as [[Hc|Hc]|Hc].
  - done.
  - destruct (Z.even (Int_part s)); [done|]. apply H1. lra.
  - apply H1. lra.
Qed.

Lemma nearest_even_ge s A : IZR A <= s → (A ≤ nearest_even s)%Z.
Proof.
  intros H. pose proof (Int_part_le s) as [Hf Hf'].
  assert (A ≤ Int_part s)%Z.
  { apply Z.lt_succ_r, lt_IZR. rewrite succ_IZR. lra. }
  unfold nearest_even.
  destruct (total_order_T (s - IZR (Int_part s)) (1 / 2)) as [[Hc|Hc]|Hc];
    [done| |lia].
  destruct (Z.even (Int_part s)); lia.
Qed.

Lemma nearest_even_IZR z : nearest_even (IZR z) = z.
Proof.
  pose proof (nearest_even_le (IZR z) z ltac:(lra)).
  pose proof (nearest_even_ge (IZR z) z ltac:(lra)). lia.
Qed.

Lemma nearest_even_near s : Rabs (IZR (nearest_even s) - s) <= 1 / 2.
Proof.
  pose proof (Int_part_le s) as [Hf Hf']. unfold nearest_even.
  destruct (total_order_T (s - IZR (Int_part s)) (1 / 2)) as [[Hc|Hc]|Hc];
    [|destruct (Z.even (Int_part s))|]; rewrite ?plus_IZR;
    apply Rabs_le; lra.
Qed.

Lemma nearest_even_tie s z :
  s = IZR z + 1 / 2 →
  nearest_even s = if Z.even z then z else (z + 1)%Z.
Proof.
  intros ->. assert (Hz : Int_part (IZR z + 1 / 2) = z).
  { symmetry. apply Int_part_spec. lra. }
  unfold nearest_even. rewrite Hz.
  destruct (total_order_T (IZR z + 1 / 2 - IZR z) (1 / 2)) as [[Hc|Hc]|Hc];
    [lra|done|lra].
Qed.

(** The rounded value stays between two points of the grid of [x] that
    enclose [x]. *)
Lemma round64_grid x e A B :
  exponent x = Some e →
  IZR A * pow2 e <= x <= IZR B * pow2 e →
  - pow2 1024 < IZR A * pow2 e → IZR B * pow2 e < pow2 1024 →
  ∃ r, round64 x = Finite r ∧ IZR A * pow2 e <= r <= IZR B * pow2 e.
Proof.
  intros He [HA HB] HlA HlB. unfold round64. rewrite He.
  pose proof (pow2_pos e) as Hp.
  assert (Hx : x = x / pow2 e * pow2 e) by (field; lra).
  set (s := x / pow2 e) in *.
  assert (HsA : IZR A <= s) by (apply (Rmult_le_reg_r (pow2 e)); lra).
  assert (HsB : s <= IZR B) by (apply (Rmult_le_reg_r (pow2 e)); lra).
  apply nearest_even_ge in HsA. apply nearest_even_le in HsB.
  apply IZR_le in HsA, HsB.
  set (M := IZR (nearest_even s)) in *.
  assert (Hr : IZR A * pow2 e <= M * pow2 e <= IZR B * pow2 e) by nra.
  cbv zeta. destruct (Rlt_dec (Rabs (M * pow2 e)) (pow2 1024)) as [_|Hn].
  - by eexists.
  - destruct Hn. apply Rabs_def1; lra.
Qed.

Lemma representable_bound y :
  representable y → ∃ e, (-1074 ≤ e ≤ 971)%Z ∧ Rabs y < pow2 (e + 53)
                        ∧ ∀ e', (e' ≤ e)%Z → ∃ N, y = IZR N * pow2 e'.
Proof.
  intros (m & e & He & Hm & ->). exists e. split; [done|].
  pose proof (pow2_pos e) as Hp. split.
  - rewrite Rabs_mult, (Rabs_pos_eq (pow2 e)) by lra.
    rewrite Z.add_comm, pow2_add, (pow2_nonneg 53) by lia.
    apply Rmult_lt_compat_r; [done|]. rewrite <- abs_IZR. by apply IZR_lt.
  - intros e' Hle. exists (m * 2 ^ (e - e'))%Z.
    rewrite mult_IZR, <- pow2_nonneg by lia.
    rewrite Rmult_assoc, <- pow2_add. do 2 f_equal. lia.
Qed.

Lemma representable_lt_max y : representable y → Rabs y < pow2 1024.
Proof.
  intros (e & He & Hlt & _)%representable_bound.
  pose proof (pow2_le (e + 53) 1024 ltac:(lia)). lra.
Qed.

Lemma round64_exact x : representable x → round64 x = Finite x.
Proof.
  intros Hx. pose proof (representable_lt_max x Hx) as Hmax.
  destruct (representable_bound x Hx) as (e1 & He1 & Hlt & Hgrid).
  destruct (exponent_le x e1 He1 Hlt) as (e & He & Hle).
  destruct (Hgrid e Hle) as [N HN].
  apply Rabs_def2 in Hmax.
  destruct (round64_grid x e N N He) as (r & Hr & Hb); [lra..|].
  rewrite Hr. f_equal. lra.
Qed.

Lemma round64_0_le x b :
  0 <= x <= b → representable b →
  ∃ r, round64 x = Finite r ∧ 0 <= r <= b.
Proof.
  intros [H0 Hb] Hrep. pose proof (representable_lt_max b Hrep) as Hmax.
  destruct (representable_bound b Hrep) as (e1 & He1 & Hlt & Hgrid).
  rewrite (Rabs_pos_eq b) in Hlt, Hmax by lra.
  destruct (exponent_le x e1 He1) as (e & He & Hle).
  { rewrite Rabs_pos_eq by done. lra. }
  destruct (Hgrid e Hle) as [N HN]. pose proof (pow2_pos 1024).
  destruct (round64_grid x e 0 N He) as (r & Hr & Hbd); [lra..|].
  exists r. split; [done|]. lra.
Qed.

Lemma round64_le_0 x a :
  a <= x <= 0 → representable a →
  ∃ r, round64 x = Finite r ∧ a <= r <= 0.
Proof.
  intros [Ha H0] Hrep. pose proof (representable_lt_max a Hrep) as Hmax.
  destruct (representable_bound a Hrep) as (e1 & He1 & Hlt & Hgrid).
  rewrite (Rabs_left1 a) in Hlt, Hmax by lra.
  destruct (exponent_le x e1 He1) as (e & He & Hle).
  { rewrite Rabs_left1 by done. lra. }
  destruct (Hgrid e Hle) as [N HN]. pose proof (pow2_pos 1024).
  destruct (round64_grid x e N 0 He) as (r & Hr & Hbd); [lra..|].
  exists r. split; [done|]. lra.
Qed.

Lemma integer_on_grid e N : (e ≤ 0)%Z → IZR N = IZR (N * 2 ^ (- e)) * pow2 e.
Proof.
  intros He. rewrite mult_IZR, <- pow2_nonneg by lia.
  rewrite Rmult_assoc, <- pow2_add. replace (- e + e)%Z with 0%Z by lia.
  unfold pow2. simpl. lra.
Qed.

Lemma pow2_53 : pow2 53 = 9007199254740992.
Proof. by rewrite pow2_nonneg by lia. Qed.

(** Below [2^53] the grid is finer than the integers: the rounded value
    stays between two integers that enclose [x]. *)
Lemma round64_int x N P :
  Rabs x < pow2 53 → IZR N <= x <= IZR P →
  (- 2 ^ 53 ≤ N)%Z → (P ≤ 2 ^ 53)%Z →
  ∃ r, round64 x = Finite r ∧ IZR N <= r <= IZR P.
Proof.
  intros Hx [HN HP] HlN HlP.
  destruct (exponent_le x 0 ltac:(lia) Hx) as (e & He & Hle).
  pose proof (integer_on_grid e N Hle) as EN.
  pose proof (integer_on_grid e P Hle) as EP.
  apply IZR_le in HlN, HlP. rewrite opp_IZR, <- pow2_nonneg, pow2_53 in HlN by lia.
  rewrite <- pow2_nonneg, pow2_53 in HlP by lia.
  pose proof (pow2_lt 53 1024 ltac:(lia)) as Hmax. rewrite pow2_53 in Hmax.
  destruct (round64_grid x e (N * 2 ^ (- e)) (P * 2 ^ (- e)) He) as (r & Hr & Hb);
    [lra..|].
  exists r. split; [done|lra].
Qed.

Lemma round64_inv x r :
  round64 x = Finite r →
  ∃ e, exponent x = Some e ∧ r = IZR (nearest_even (x / pow2 e)) * pow2 e.
Proof.
  unfold round64. destruct (exponent x) as [e|]; [|done]. cbv zeta.
  destruct (Rlt_dec _ _); [|done]. intros [= <-]. by exists e.
Qed.

(** The rounded value is a multiple of the unit in the last place, at most
    half a unit away. *)
Lemma round64_near x r :
  round64 x = Finite r →
  ∃ e M, exponent x = Some e ∧ r = IZR M * pow2 e
         ∧ Rabs (r - x) <= pow2 e / 2.
Proof.
  intros (e & He & ->)%round64_inv. exists e, (nearest_even (x / pow2 e)).
  split; [done|]. split; [done|]. pose proof (pow2_pos e) as Hp.
  pose proof (nearest_even_near (x / pow2 e)) as Hn.
  replace (IZR (nearest_even (x / pow2 e)) * pow2 e - x)
    with ((IZR (nearest_even (x / pow2 e)) - x / pow2 e) * pow2 e)
    by (field; lra).
  rewrite Rabs_mult, (Rabs_pos_eq (pow2 e)) by lra.
  pose proof (Rabs_pos (IZR (nearest_even (x / pow2 e)) - x / pow2 e)). nra.
Qed.

(** A rounded value is not below an integer under [2^53] that [x] is not
    below. *)
Lemma round64_ge_int x r N :
  round64 x = Finite r → (0 ≤ N ≤ 2 ^ 53)%Z → IZR N <= x → IZR N <= r.
Proof.
  intros (e & He & ->)%round64_inv HN Hx.
  pose proof (pow2_pos e) as Hp.
  assert (Hs : x = x / pow2 e * pow2 e) by (field; lra).
  set (s := x / pow2 e) in *.
  destruct (decide (e ≤ 0)%Z) as [Hle|Hgt].
  - pose proof (integer_on_grid e N Hle) as EN.
    assert (IZR (N * 2 ^ (- e)) <= s) as Hge%nearest_even_ge%IZR_le
      by (apply (Rmult_le_reg_r (pow2 e)); lra).
    rewrite EN. nra.
  - apply exponent_spec in He as (Hr & _ & Hlow).
    specialize (Hlow ltac:(lia)).
    assert (0 <= IZR N) by (apply IZR_le; lia).
    rewrite Rabs_pos_eq in Hlow by lra.
    rewrite Z.add_comm, pow2_add in Hlow.
    assert (pow2 52 <= s) as Hge by (apply (Rmult_le_reg_r (pow2 e)); lra).
    rewrite pow2_nonneg in Hge by lia.
    apply nearest_even_ge, IZR_le in Hge. rewrite <- pow2_nonneg in Hge by lia.
    assert (IZR N <= pow2 53).
    { rewrite pow2_nonneg by lia. apply IZR_le. lia. }
    pose proof (pow2_le 1 e ltac:(lia)) as H1.
    replace (pow2 1) with 2 in H1 by (unfold pow2; simpl; lra).
    replace (pow2 53) with (pow2 52 * 2) in *
      by (rewrite !pow2_nonneg by lia; rewrite <- mult_IZR; done).
    pose proof (pow2_pos 52). nra.
Qed.

Lemma trunc_nonneg x : 0 <= x → trunc x = Int_part x.
Proof. intros H. unfold trunc. by destruct (Rle_dec 0 x). Qed.

Lemma Int_part_IZR z : Int_part (IZR z) = z.
Proof. symmetry. apply Int_part_spec. lra. Qed.

Lemma trunc_IZR z : trunc (IZR z) = z.
Proof.
  unfold trunc. destruct (Rle_dec 0 (IZR z)); [apply Int_part_IZR|].
  rewrite <- opp_IZR, Int_part_IZR. lia.
Qed.

Lemma trunc_between x N P :
  (0 ≤ N)%Z → IZR N <= x <= IZR P → (N ≤ trunc x ≤ P)%Z.
Proof.
  intros H0 [HN HP]. apply IZR_le in H0. rewrite trunc_nonneg by lra.
  pose proof (Int_part_le x). split.
  - apply Z.lt_succ_r, lt_IZR. rewrite succ_IZR. lra.
  - apply le_IZR. lra.
Qed.

Lemma trunc_le_0 x : x <= 0 → (trunc x ≤ 0)%Z.
Proof.
  intros H. unfold trunc. destruct (Rle_dec 0 x).
  - replace x with (IZR 0) by lra. by rewrite Int_part_IZR.
  - pose proof (Int_part_le (- x)). assert (0 ≤ Int_part (- x))%Z; [|lia].
    apply Z.lt_succ_r, lt_IZR. rewrite succ_IZR. lra.
Qed.

Lemma representable_IZR n : (Z.abs n < 2 ^ 53)%Z → representable (IZR n).
Proof.
  intros H. exists n, 0%Z. split; [lia|]. split; [done|].
  unfold pow2. simpl. lra.
Qed.

Lemma representable_pow2 e : (-1074 ≤ e ≤ 971)%Z → representable (pow2 e).
Proof. intros H. exists 1%Z, e. split; [done|]. split; [done|]. lra. Qed.

Lemma float_of_int_exact n :
  (Z.abs n < 2 ^ 53)%Z → float_of_int n = inr (Finite (IZR n)).
Proof.
  intros H. unfold float_of_int. by rewrite round64_exact by by apply representable_IZR.
Qed.

Lemma float_of_int_index n :
  (0 ≤ n < 2 ^ 63)%Z →
  ∃ a, float_of_int n = inr (Finite a) ∧ 0 <= a <= pow2 63.
Proof.
  intros [H0 H1]. apply IZR_le in H0. apply IZR_lt in H1.
  rewrite <- pow2_nonneg in H1 by lia.
  destruct (round64_0_le (IZR n) (pow2 63)) as (a & Ha & Hb);
    [lra|by apply representable_pow2|].
  exists a. unfold float_of_int. by rewrite Ha.
Qed.

(** A fraction between 0 and 1: the product is finite and not negative. *)
Lemma product_int_fraction n x :
  (Z.of_nat n < 2 ^ 63)%Z → 0 <= x <= 1 →
  ∃ sp, product_int n (Finite x) = inr sp ∧ (0 ≤ sp)%Z.
Proof.
  intros Hn Hx.
  destruct (float_of_int_index (Z.of_nat n) ltac:(lia)) as (a & Ha & Hb).
  destruct (round64_0_le (a * x) (pow2 63)) as (r & Hr & Hrb);
    [nra|by apply representable_pow2|].
  exists (trunc r). unfold product_int. rewrite Ha. cbn [mul64]. rewrite Hr.
  split; [done|]. rewrite trunc_nonneg by lra.
  pose proof (Int_part_le r). apply Z.lt_succ_r, lt_IZR. rewrite succ_IZR. lra.
Qed.

(** With fewer than [2^53] rows the row count is a float, and the slice
    bound is the floor of the exact product or the integer above it. *)
Lemma product_int_small n x :
  (Z.of_nat n < 2 ^ 53)%Z → 0 <= x <= 1 →
  ∃ sp, product_int n (Finite x) = inr sp
        ∧ (Int_part (INR n * x) ≤ sp ≤ Int_part (INR n * x) + 1)%Z
        ∧ (0 ≤ sp ≤ Z.of_nat n)%Z.
Proof.
  intros Hn Hx. rewrite INR_IZR_INZ.
  assert (H0 : 0 <= IZR (Z.of_nat n)) by (apply IZR_le; lia).
  assert (H53 : IZR (Z.of_nat n) < pow2 53).
  { rewrite pow2_nonneg by lia. by apply IZR_lt. }
  set (y := IZR (Z.of_nat n) * x). assert (Hy : 0 <= y <= IZR (Z.of_nat n)) by (unfold y; nra).
  pose proof (Int_part_le y) as Hf.
  assert (H0f : (0 ≤ Int_part y)%Z).
  { apply Z.lt_succ_r, lt_IZR. rewrite succ_IZR. lra. }
  assert (Hfn : (Int_part y ≤ Z.of_nat n)%Z) by (apply le_IZR; lra).
  assert (Habs : Rabs y < pow2 53) by (rewrite Rabs_pos_eq; lra).
  destruct (round64_int y (Int_part y) (Int_part y + 1) Habs) as (r & Hr & Hb);
    [rewrite plus_IZR; lra|lia|lia|].
  destruct (round64_int y 0 (Z.of_nat n) Habs) as (r' & Hr' & Hb');
    [lra|lia|lia|].
  rewrite Hr in Hr'. injection Hr' as <-.
  exists (trunc r). unfold product_int.
  rewrite float_of_int_exact by lia. cbn [mul64]. fold y. rewrite Hr.
  split; [done|].
  pose proof (trunc_between r (Int_part y) (Int_part y + 1) H0f Hb).
  pose proof (trunc_between r 0 (Z.of_nat n) ltac:(lia) Hb'). lia.
Qed.

(** An exact product is not rounded. *)
Lemma product_int_representable n x :
  (Z.of_nat n < 2 ^ 53)%Z → representable (INR n * x) →
  product_int n (Finite x) = inr (trunc (INR n * x)).
Proof.
  intros Hn Hy. rewrite INR_IZR_INZ in *. unfold product_int.
  rewrite float_of_int_exact by lia. cbn [mul64]. by rewrite round64_exact.
Qed.

Lemma product_int_IZR n x k :
  (Z.of_nat n < 2 ^ 53)%Z → (Z.abs k < 2 ^ 53)%Z → INR n * x = IZR k →
  product_int n (Finite x) = inr k.
Proof.
  intros Hn Hk H. rewrite product_int_representable, H, ?trunc_IZR; [done..|].
  rewrite H. by apply representable_IZR.
Qed.

(** A fraction between -1 and 0: the product is finite and not positive. *)
Lemma product_int_negative n x :
  (Z.of_nat n < 2 ^ 63)%Z → -1 <= x <= 0 →
  ∃ sp, product_int n (Finite x) = inr sp ∧ (sp ≤ 0)%Z.
Proof.
  intros Hn Hx.
  destruct (float_of_int_index (Z.of_nat n) ltac:(lia)) as (a & Ha & Hb).
  destruct (round64_le_0 (a * x) (- pow2 63)) as (r & Hr & Hrb); [nra| |].
  { exists (-1)%Z, 63%Z. split; [lia|]. split; [done|]. lra. }
  exists (trunc r). unfold product_int. rewrite Ha. cbn [mul64]. rewrite Hr.
  split; [done|]. apply trunc_le_0. lra.
Qed.

(** A fraction of 1 or more: the slice bound is the row count or more. *)
Lemma product_int_ge n x sp :
  (Z.of_nat n < 2 ^ 53)%Z → 1 <= x →
  product_int n (Finite x) = inr sp → (Z.of_nat n ≤ sp)%Z.
Proof.
  intros Hn Hx. unfold product_int.
  rewrite float_of_int_exact by lia. cbn [mul64].
  destruct (round64 (IZR (Z.of_nat n) * x)) as [r| |] eqn:Hr; try done.
  intros [= <-].
  assert (H0 : 0 <= IZR (Z.of_nat n)) by (apply IZR_le; lia).
  pose proof (round64_ge_int _ r (Z.of_nat n) Hr ltac:(lia) ltac:(nra)) as Hge.
  rewrite trunc_nonneg by lra. pose proof (Int_part_le r).
  apply Z.lt_succ_r, lt_IZR. rewrite succ_IZR. lra.
Qed.

(** *** A product that is rounded up to an integer *)

Lemma pow2_neg e : (0 ≤ e)%Z → pow2 (- e) = / IZR (2 ^ e).
Proof.
  intros H. unfold pow2. rewrite powerRZ_neg'. f_equal. by apply pow2_nonneg.
Qed.

Lemma representable_seven_tenths : representable seven_tenths.
Proof.
  exists 3152519739159347%Z, (-52)%Z. split; [lia|]. split; [done|].
  change (-52)%Z with (Z.opp 52). rewrite pow2_neg by lia.
  change (2 ^ 52)%Z with 4503599627370496%Z. unfold seven_tenths. lra.
Qed.

Lemma round64_ten_times_seven_tenths : round64 (10 * seven_tenths) = Finite 7.
Proof.
  assert (He : exponent (10 * seven_tenths) = Some (-50)%Z).
  { apply exponent_unique; [lia|].
    rewrite Rabs_pos_eq by (unfold seven_tenths; lra).
    change (-50 + 52)%Z with 2%Z. change (-50 + 53)%Z with 3%Z.
    rewrite !pow2_nonneg by lia. change (2 ^ 2)%Z with 4%Z.
    change (2 ^ 3)%Z with 8%Z. unfold seven_tenths. lra. }
  unfold round64. rewrite He. cbv zeta.
  change (-50)%Z with (Z.opp 50). rewrite pow2_neg by lia.
  change (2 ^ 50)%Z with 1125899906842624%Z.
  rewrite (nearest_even_tie _ 7881299347898367) by (unfold seven_tenths; lra).
  change (Z.even 7881299347898367) with false. cbv iota.
  change (7881299347898367 + 1)%Z with 7881299347898368%Z.
  replace (7881299347898368 * / 1125899906842624) with 7 by lra.
  destruct (Rlt_dec (Rabs 7) (pow2 1024)) as [_|Hn]; [done|].
  destruct Hn. rewrite Rabs_pos_eq by lra.
  pose proof (pow2_lt 3 1024 ltac:(lia)) as H. rewrite (pow2_nonneg 3) in H by lia.
  change (2 ^ 3)%Z with 8%Z in H. lra.
Qed.

Lemma product_int_ten_seven_tenths : product_int 10 (Finite seven_tenths) = inr 7%Z.
Proof.
  unfold product_int. rewrite float_of_int_exact by (simpl; lia).
  cbn [mul64 Z.of_nat]. change (IZR (Z.of_nat 10)) with 10.
  rewrite round64_ten_times_seven_tenths. cbn [int_of_float].
  f_equal. apply (trunc_IZR 7).
Qed.

Lemma floor_ten_seven_tenths : Int_part (INR 10 * seven_tenths) = 6%Z.
Proof.
  symmetry. apply Int_part_spec. rewrite INR_IZR_INZ.
  change (IZR (Z.of_nat 10)) with 10. unfold seven_tenths. lra.
Qed.
End Rounding.

(** ** Running the primitives *)

Lemma bind_run {S A B} (m : St S A) (k : A → St S B) σ σ' x :
  m σ = (σ', inr x) → bind m k σ = k x σ'.
Proof. intros H. unfold bind. by rewrite H. Qed.

Lemma bind_raise {S A B} (m : St S A) (k : A → St S B) σ σ' e :
  m σ = (σ', inl e) → bind m k σ = (σ', inl e).
Proof. intros H. unfold bind. by rewrite H. Qed.

Lemma load2_sub σ l m r0 r1 c0 c1 :
  σ !! l = Some (Buf2 m) →
  load2 (Sub l r0 r1 c0 c1) σ
  = (σ, inr (Mat (c1 - c0) (map (window c0 c1) (window r0 r1 (rows m))))).
Proof. intros H. unfold load2. simpl. by rewrite H. Qed.

Lemma load1_own σ l v :
  σ !! l = Some (Buf1 v) → load1 (Own1 l) σ = (σ, inr v).
Proof. intros H. unfold load1. simpl. by rewrite H. Qed.

Lemma load_run σ d b : σ !! d = Some b → load d σ = (σ, inr b).
Proof. intros H. unfold load. by rewrite H. Qed.

Lemma shape0_run σ d m :
  σ !! d = Some (Buf2 m) → shape0 d σ = (σ, inr (length (rows m))).
Proof. intros H. unfold shape0. by rewrite (bind_run _ _ _ _ _ (load_run _ _ _ H)). Qed.

Lemma index_last n : 1 ≤ n → index n (-1) = Some (n - 1).
Proof.
  intros Hn. unfold index. rewrite bool_decide_eq_true_2 by lia.
  simpl. f_equal. lia.
Qed.

Lemma index_first n : 1 ≤ n → index n 0 = Some 0.
Proof.
  intros Hn. unfold index. rewrite bool_decide_eq_true_2 by lia. done.
Qed.

Lemma clamp_last n : clamp n (-1) = n - 1.
Proof. unfold clamp. simpl. lia. Qed.

Lemma clamp_le n i : clamp n i ≤ n.
Proof. unfold clamp. destruct (Z.ltb_spec i 0); lia. Qed.

Lemma setitem_own σ l v k i x :
  σ !! l = Some (Buf1 v) → index (length v) i = Some k →
  setitem (Own1 l) i x σ = (<[l := Buf1 (<[k := x]> v)]> σ, inr tt).
Proof.
  intros H Hi. unfold setitem.
  rewrite (bind_run _ _ _ _ _ (load1_own _ _ _ H)). by rewrite Hi.
Qed.

Lemma length_reduce_axis0 f m : length (reduce_axis0 f m) = ncols m.
Proof. unfold reduce_axis0. by rewrite length_map, length_seq. Qed.

Lemma window_0 {A} h : window (A:=A) 0 h = take h.
Proof. unfold window. by rewrite Nat.sub_0_r. Qed.

Lemma window_end {A} lo (l : list A) : window lo (length l) l = drop lo l.
Proof. unfold window. apply take_ge. by rewrite length_drop. Qed.

Lemma insert_app_at {A} (l1 l2 : list A) j i x :
  j = length l1 + i → <[j := x]> (l1 ++ l2) = l1 ++ <[i := x]> l2.
Proof. intros ->. apply insert_app_r. Qed.

Lemma lookup_app_at {A} (l1 l2 : list A) j i :
  j = length l1 + i → (l1 ++ l2) !! j = l2 !! i.
Proof. intros ->. rewrite lookup_app_r by lia. f_equal. lia. Qed.

Lemma getitem_slice_index_run σ d m start stop j c :
  σ !! d = Some (Buf2 m) → index (ncols m) j = Some c →
  getitem_slice_index d start stop j σ
  = (σ, inr (Col d (from_option (clamp (length (rows m))) 0 start)
               (from_option (clamp (length (rows m))) (length (rows m)) stop) c)).
Proof.
  intros H Hj. unfold getitem_slice_index.
  rewrite (bind_run _ _ _ _ _ (load_run _ _ _ H)). by rewrite Hj.
Qed.

Lemma getitem_slice_slice_run σ d m start stop cstart cstop :
  σ !! d = Some (Buf2 m) →
  getitem_slice_slice d start stop cstart cstop σ
  = (σ, inr (Sub d (from_option (clamp (length (rows m))) 0 start)
               (from_option (clamp (length (rows m))) (length (rows m)) stop)
               (from_option (clamp (ncols m)) 0 cstart)
               (from_option (clamp (ncols m)) (ncols m) cstop))).
Proof.
  intros H. unfold getitem_slice_slice.
  by rewrite (bind_run _ _ _ _ _ (load_run _ _ _ H)).
Qed.

Lemma reduce_sub_run f σ l m r0 r1 c0 c1 :
  σ !! l = Some (Buf2 m) →
  (do x <- load2 (Sub l r0 r1 c0 c1);
   do b <- alloc (Buf1 (reduce_axis0 f x)); ret (Own1 b)) σ
  = (σ ++ [Buf1 (reduce_axis0 f
                   (Mat (c1 - c0) (map (window c0 c1) (window r0 r1 (rows m)))))],
     inr (Own1 (length σ))).
Proof. intros H. by rewrite (bind_run _ _ _ _ _ (load2_sub _ _ _ _ _ _ _ H)). Qed.

Lemma binop_run op σ a b x v r :
  read2 a σ = Some x → read1 b σ = Some v → broadcast op x v = Some r →
  binop op a b σ = (σ ++ [Buf2 r], inr (Own2 (length σ))).
Proof.
  intros Ha Hb Hr. unfold binop, bind, load2, load1.
  by rewrite Ha, Hb, Hr.
Qed.

Lemma broadcast_same op x v :
  length v = ncols x →
  broadcast op x v = Some (Mat (ncols x) (map (λ row, zip_with op row v) (rows x))).
Proof. intros H. unfold broadcast. by rewrite decide_True. Qed.

(** ** The run of the function on a matrix with a feature column *)

Lemma int_of_product_run n f σ :
  int_of_product n f σ = (σ, product_int n f).
Proof.
  unfold int_of_product, product_int, bind, lift.
  by destruct (float_of_int (Z.of_nat n)).
Qed.

Section Run.
Variables (σ : store) (d : loc) (m : matrix) (f : double) (sp : Z).
Hypothesis Hd : σ !! d = Some (Buf2 m).
Hypothesis Hsp : product_int (length (rows m)) f = inr sp.

Let n := length (rows m).
Let k := training_rows m sp.
Let c := ncols m - 1.
Let T := train_features m sp.
Let U := test_features m sp.

(** With a label column the body gets as far as the two item
    assignments. *)
Lemma split_and_preprocess_body_prefix :
  1 ≤ ncols m →
  split_and_preprocess_body d f σ
  = (do _ <- setitem (Own1 (length σ)) 0 (Some 0%R);
     do _ <- setitem (Own1 (S (length σ))) 0 (Some 1%R);
     ret (Locals sp (Col d 0 k c) (Col d k n c) (Sub d 0 k 0 c) (Sub d k n 0 c)
            (Own1 (length σ)) (Own1 (S (length σ)))))
      (σ ++ [Buf1 (reduce_axis0 xmean T); Buf1 (reduce_axis0 xstd T)]).
Proof.
  intros Hc.
  unfold split_and_preprocess_body.
  rewrite (bind_run _ _ _ _ _ (shape0_run _ _ _ Hd)).
  rewrite (bind_run _ _ σ σ sp) by (by rewrite int_of_product_run, Hsp).
  rewrite (bind_run _ _ _ _ _
             (getitem_slice_index_run _ _ _ _ _ _ _ Hd (index_last _ Hc))).
  rewrite (bind_run _ _ _ _ _
             (getitem_slice_index_run _ _ _ _ _ _ _ Hd (index_last _ Hc))).
  rewrite !(bind_run _ _ _ _ _ (getitem_slice_slice_run _ _ _ _ _ _ _ Hd)).
  simpl from_option. rewrite clamp_last. fold n k c.
  unfold mean_axis0, std_axis0.
  rewrite (bind_run _ _ _ _ _ (reduce_sub_run _ _ _ _ _ _ _ _ Hd)).
  rewrite (bind_run _ _ _ _ _
             (reduce_sub_run _ _ _ _ _ _ _ _ (lookup_app_l_Some _ _ _ _ Hd))).
  rewrite !window_0, length_app, Nat.add_1_r, !Nat.sub_0_r. simpl length.
  fold T. by rewrite <- app_assoc.
Qed.

(** Without a feature column [mean] is empty and [mean[0] = 0.0] raises. *)
Lemma split_and_preprocess_body_label_only :
  ncols m = 1 →
  split_and_preprocess_body d f σ
  = (σ ++ [Buf1 []; Buf1 []], inl IndexError).
Proof.
  intros H1. rewrite split_and_preprocess_body_prefix by lia.
  assert (Hr : ∀ g, reduce_axis0 g T = []).
  { intros g. unfold reduce_axis0, T, train_features, features.
    cbn [ncols]. by rewrite H1. }
  rewrite !Hr. unfold setitem.
  erewrite bind_raise; [done|].
  erewrite bind_run; [|apply load1_own, list_lookup_middle; done]. done.
Qed.

Hypothesis Hm : 2 ≤ ncols m.

Let mu := mean_values m sp.
Let sg := sigma_values m sp.

Lemma split_and_preprocess_body_run :
  split_and_preprocess_body d f σ
  = (σ ++ [Buf1 mu; Buf1 sg],
     inr (Locals sp (Col d 0 k c) (Col d k n c) (Sub d 0 k 0 c) (Sub d k n 0 c)
            (Own1 (length σ)) (Own1 (S (length σ))))).
Proof.
  rewrite split_and_preprocess_body_prefix by lia.
  assert (Hl : ∀ g, index (length (reduce_axis0 g T)) 0 = Some 0).
  { intros g. apply index_first. rewrite length_reduce_axis0. simpl. lia. }
  rewrite (bind_run _ _ _ _ _
             (setitem_own _ _ _ _ _ _ (list_lookup_middle _ _ _ _ eq_refl) (Hl _))).
  rewrite (insert_app_at σ _ _ 0) by lia. simpl. fold mu.
  assert (H1 : (σ ++ [Buf1 mu; Buf1 (reduce_axis0 xstd T)]) !! S (length σ)
               = Some (Buf1 (reduce_axis0 xstd T))).
  { by rewrite (lookup_app_at σ _ _ 1) by lia. }
  rewrite (bind_run _ _ _ _ _ (setitem_own _ _ _ _ _ _ H1 (Hl _))).
  by rewrite (insert_app_at σ _ _ 1) by lia.
Qed.

Let A := minus mu T.
Let B := minus mu U.
Let train_data := over sg A.
Let test_data := over sg B.

Lemma read_train t : read2 (Sub d 0 k 0 c) (σ ++ t) = Some T.
Proof.
  unfold read2. rewrite (lookup_app_l_Some _ _ _ _ Hd).
  by rewrite !window_0, Nat.sub_0_r.
Qed.

Lemma read_test t : read2 (Sub d k n 0 c) (σ ++ t) = Some U.
Proof.
  unfold read2. rewrite (lookup_app_l_Some _ _ _ _ Hd).
  unfold n. by rewrite window_end, !window_0, Nat.sub_0_r.
Qed.

Lemma read_mean t : read1 (Own1 (length σ)) (σ ++ Buf1 mu :: t) = Some mu.
Proof. unfold read1. by rewrite list_lookup_middle. Qed.

Lemma read_sigma t :
  read1 (Own1 (S (length σ))) (σ ++ Buf1 mu :: Buf1 sg :: t) = Some sg.
Proof. unfold read1. by rewrite (lookup_app_at σ _ _ 1) by lia. Qed.

Lemma read_own2 t i b :
  t !! i = Some (Buf2 b) → read2 (Own2 (length σ + i)) (σ ++ t) = Some b.
Proof. intros H. unfold read2. by rewrite (lookup_app_at σ _ _ i), H. Qed.

Lemma length_mu : length mu = c.
Proof. unfold mu, mean_values. by rewrite length_insert, length_reduce_axis0. Qed.

Lemma length_sg : length sg = c.
Proof. unfold sg, sigma_values. by rewrite length_insert, length_reduce_axis0. Qed.

Lemma split_and_preprocess_run :
  split_and_preprocess d f σ
  = (σ ++ [Buf1 mu; Buf1 sg; Buf2 A; Buf2 train_data; Buf2 B; Buf2 test_data],
     inr (Own2 (length σ + 3), Col d 0 k c, Own2 (length σ + 5), Col d k n c)).
Proof.
  unfold split_and_preprocess.
  rewrite (bind_run _ _ _ _ _ split_and_preprocess_body_run).
  cbn [train test mean sigma train_labels test_labels].
  unfold sub, div.
  erewrite bind_run;
    [| eapply binop_run;
       [apply read_train | apply read_mean | apply (broadcast_same _ T), length_mu]].
  rewrite <- app_assoc, length_app. simpl app. simpl length.
  erewrite bind_run;
    [| eapply binop_run;
       [by apply (read_own2 _ 2) | apply read_sigma
       | apply (broadcast_same _ A), length_sg]].
  rewrite <- app_assoc, length_app. simpl app. simpl length.
  erewrite bind_run;
    [| eapply binop_run;
       [apply read_test | apply read_mean | apply (broadcast_same _ U), length_mu]].
  rewrite <- app_assoc, length_app. simpl app. simpl length.
  erewrite bind_run;
    [| eapply binop_run;
       [by apply (read_own2 _ 4) | apply read_sigma
       | apply (broadcast_same _ B), length_sg]].
  rewrite <- app_assoc, length_app. simpl app. simpl length.
  reflexivity.
Qed.

Lemma read_col t r0 r1 j :
  read1 (Col d r0 r1 j) (σ ++ t) = Some (column j (window r0 r1 (rows m))).
Proof. unfold read1. by rewrite (lookup_app_l_Some _ _ _ _ Hd). Qed.

(** The values of the locals at the [return] statement. *)
Lemma statistics_run :
  statistics (split_and_preprocess_body d f σ) = Some (sp, mu, sg).
Proof.
  rewrite split_and_preprocess_body_run. unfold statistics.
  cbn [mean sigma split_point]. by rewrite read_mean, read_sigma.
Qed.

(** The values of the four returned arrays. *)
Lemma returned_run :
  returned (split_and_preprocess d f σ)
  = Some (train_data, column c (take k (rows m)),
          test_data, column c (drop k (rows m))).
Proof.
  rewrite split_and_preprocess_run. unfold returned.
  erewrite (read_own2 _ 3), (read_own2 _ 5) by done.
  rewrite !read_col. unfold n. by rewrite window_end, window_0.
Qed.
End Run.

(** ** Sums, means and deviations of finite columns *)

Lemma xsum_finite xs : xsum (map Some xs) = Some (Rsum xs).
Proof.
  induction xs as [|x xs IH]; [done|].
  change (xadd (Some x) (xsum (map Some xs)) = Some (x + Rsum xs)%R).
  by rewrite IH.
Qed.

Lemma xsum_Some l r :
  xsum l = Some r → ∃ xs, l = map Some xs ∧ r = Rsum xs.
Proof.
  revert r. induction l as [|a l IH]; intros r H.
  - exists []. by inversion H.
  - simpl in H. destruct a as [x|]; [|done].
    destruct (xsum l) as [y|] eqn:E; [|done].
    destruct (IH y eq_refl) as (xs & -> & ->).
    exists (x :: xs). split; [done|]. by inversion H.
Qed.

Lemma xdiv_Some a b r :
  xdiv a b = Some r → ∃ x y, a = Some x ∧ b = Some y ∧ y ≠ 0%R ∧ r = (x / y)%R.
Proof.
  destruct a as [x|], b as [y|]; simpl; try done.
  destruct (Req_dec_T y 0); [done|]. intros [= <-]. by exists x, y.
Qed.

Lemma xdiv_finite x y : y ≠ 0%R → xdiv (Some x) (Some y) = Some (x / y)%R.
Proof. intros H. simpl. by destruct (Req_dec_T y 0). Qed.

Lemma xsqrt_Some a r :
  xsqrt a = Some r → ∃ x, a = Some x ∧ (0 <= x)%R ∧ r = sqrt x.
Proof.
  destruct a as [x|]; simpl; [|done].
  destruct (Rlt_dec x 0); [done|]. intros [= <-]. exists x. split; [done|]. split; [lra|done].
Qed.

Lemma xsqrt_finite x : (0 <= x)%R → xsqrt (Some x) = Some (sqrt x).
Proof. intros H. simpl. destruct (Rlt_dec x 0); [lra|done]. Qed.

(** The deviations are finite only if the mean is. *)
Lemma deviations_Some (mu : xr) l xs :
  l ≠ [] →
  map (λ x, let d := xsub x mu in xmul d d) l = map Some xs →
  ∃ c ys, mu = Some c ∧ l = map Some ys
          ∧ xs = map (λ y, ((y - c) * (y - c))%R) ys.
Proof.
  intros Hne H. destruct mu as [c|].
  - exists c. revert xs H. clear Hne.
    induction l as [|a l IH]; intros [|x xs] H; simpl in H; try done.
    + by exists [].
    + injection H as Ha Hl. destruct (IH _ Hl) as (ys & _ & -> & ->).
      destruct a as [y|]; [|done]. exists (y :: ys).
      simpl in Ha. injection Ha as <-. done.
  - destruct l as [|a l]; [done|]. destruct xs; [done|].
    simpl in H. by destruct a.
Qed.

(** What [xstd l = Some s] says about the column [l]. *)
Lemma xstd_Some l s :
  xstd l = Some s →
  ∃ xs, l = map Some xs ∧ INR (length xs) ≠ 0%R
        ∧ xmean l = Some (Rsum xs / INR (length xs))%R
        ∧ let c := (Rsum xs / INR (length xs))%R in
          let v := (Rsum (map (λ x, ((x - c) * (x - c))%R) xs) / INR (length xs))%R in
          (0 <= v)%R ∧ s = sqrt v.
Proof.
  unfold xstd. intros H.
  apply xsqrt_Some in H as (v & H & Hv & ->).
  apply xdiv_Some in H as (t & y & Ht & [= <-] & Hn & ->).
  apply xsum_Some in Ht as (ds & Hds & ->).
  assert (Hne : l ≠ []) by (intros ->; by apply Hn).
  destruct (deviations_Some _ _ _ Hne Hds) as (c & xs & Hc & -> & ->).
  assert (Hm : xmean (map Some xs) = Some (Rsum xs / INR (length xs))%R).
  { unfold xmean. rewrite xsum_finite, length_map. apply xdiv_finite.
    by rewrite length_map in Hn. }
  rewrite Hm in Hc. injection Hc as <-.
  rewrite length_map in *. exists xs. done.
Qed.

Lemma Rsum_standardized c s xs :
  s ≠ 0%R →
  Rsum (map (λ x, ((x - c) / s)%R) xs)
  = ((Rsum xs - INR (length xs) * c) / s)%R.
Proof.
  intros Hs. induction xs as [|x xs IH].
  - simpl. by field.
  - change (((x - c) / s + Rsum (map (λ x, ((x - c) / s)%R) xs))%R
            = ((x + Rsum xs - INR (S (length xs)) * c) / s)%R).
    rewrite IH, S_INR. by field.
Qed.

Lemma Rsum_squares_standardized c s xs :
  s ≠ 0%R →
  Rsum (map (λ y, ((y - 0) * (y - 0))%R) (map (λ x, ((x - c) / s)%R) xs))
  = (Rsum (map (λ x, ((x - c) * (x - c))%R) xs) / (s * s))%R.
Proof.
  intros Hs. induction xs as [|x xs IH].
  - simpl. by field.
  - change (((((x - c) / s - 0) * ((x - c) / s - 0))
             + Rsum (map (λ y, ((y - 0) * (y - 0))%R)
                       (map (λ x, ((x - c) / s)%R) xs)))%R
            = (((x - c) * (x - c)
                + Rsum (map (λ x, ((x - c) * (x - c))%R) xs)) / (s * s))%R).
    rewrite IH. by field.
Qed.

Lemma map_standardize_finite (c s : R) xs :
  s ≠ 0%R →
  map (λ x, xdiv (xsub x (Some c)) (Some s)) (map Some xs)
  = map Some (map (λ x, ((x - c) / s)%R) xs).
Proof.
  intros Hs. rewrite !map_map. apply map_ext. intros x.
  simpl. by destruct (Req_dec_T s 0).
Qed.

Lemma map_deviation_finite (c : R) xs :
  map (λ x, xmul (xsub x (Some c)) (xsub x (Some c))) (map Some xs)
  = map Some (map (λ y, ((y - c) * (y - c))%R) xs).
Proof. by rewrite !map_map. Qed.

(** A column with a non-zero standard deviation, once its mean is subtracted
    and the result divided by that deviation, has mean 0 and deviation 1. *)
Lemma standardized_column l mu s :
  xmean l = mu → xstd l = Some s → s ≠ 0%R →
  let l' := map (λ x, xdiv (xsub x mu) (Some s)) l in
  xmean l' = Some 0%R ∧ xstd l' = Some 1%R.
Proof.
  intros Hmu Hstd Hs.
  destruct (xstd_Some _ _ Hstd) as (xs & -> & Hn & Hmean & Hv & Hsv).
  rewrite Hmean in Hmu. subst mu. cbv zeta in Hv, Hsv.
  set (c := (Rsum xs / INR (length xs))%R) in *.
  set (D := Rsum (map (λ x, ((x - c) * (x - c))%R) xs)) in *.
  assert (Hss : (s * s = D / INR (length xs))%R).
  { rewrite Hsv. by apply sqrt_sqrt. }
  assert (HD : D ≠ 0%R).
  { intros HD0. apply Hs. rewrite Hsv, HD0.
    replace (0 / INR (length xs))%R with 0%R by (by field). apply sqrt_0. }
  intros l'. unfold l'. rewrite map_standardize_finite by done.
  assert (Hm' : xmean (map Some (map (λ x, ((x - c) / s)%R) xs)) = Some 0%R).
  { unfold xmean. rewrite xsum_finite, !length_map, xdiv_finite by done.
    rewrite Rsum_standardized by done. f_equal. unfold c. by field. }
  split; [done|].
  unfold xstd. rewrite Hm'.
  rewrite (map_deviation_finite 0).
  rewrite xsum_finite, !length_map, xdiv_finite by done.
  rewrite Rsum_squares_standardized, Hss by done. fold D.
  replace (D / (D / INR (length xs)) / INR (length xs))%R with 1%R by (by field).
  rewrite xsqrt_finite by lra. by rewrite sqrt_1.
Qed.

(** ** Columns of the returned matrices *)

Lemma reduce_axis0_lookup g x j :
  j < ncols x → reduce_axis0 g x !! j = Some (g (column j (rows x))).
Proof.
  intros Hj. unfold reduce_axis0.
  by rewrite list_lookup_fmap, lookup_seq_lt.
Qed.

Lemma column_features m rs j :
  j < ncols m - 1 → column j (rows (features m rs)) = column j rs.
Proof.
  intros Hj. unfold column, features. cbn [rows]. rewrite map_map.
  apply map_ext. intros row. by rewrite lookup_take_lt.
Qed.

(** Column [j] of [(x - mu) / sg] is column [j] of [x], shifted by [mu[j]]
    and scaled by [sg[j]]. *)
Lemma column_normalized mu sg x j a b :
  mu !! j = Some a → sg !! j = Some b →
  column j (rows (over sg (minus mu x)))
  = map (λ v, xdiv (xsub v a) b) (column j (rows x)).
Proof.
  intros Ha Hb. unfold column, over, minus. cbn [rows]. rewrite !map_map.
  apply map_ext. intros row. rewrite !lookup_zip_with, Ha, Hb.
  by destruct (row !! j).
Qed.

Lemma xdiv_xsub_0_1 v : xdiv (xsub v (Some 0%R)) (Some 1%R) = v.
Proof.
  destruct v as [x|]; [|done]. cbn [xsub]. rewrite xdiv_finite by lra.
  f_equal. by field.
Qed.

Lemma map_xdiv_xsub_0_1 l :
  map (λ v, xdiv (xsub v (Some 0%R)) (Some 1%R)) l = l.
Proof.
  induction l as [|v l IH]; [done|].
  cbn [map]. by rewrite xdiv_xsub_0_1, IH.
Qed.

Lemma length_rows_over_minus mu sg x :
  length (rows (over sg (minus mu x))) = length (rows x).
Proof. unfold over, minus. cbn [rows]. by rewrite !length_map. Qed.

Lemma length_column j rs : length (column j rs) = length rs.
Proof. apply length_map. Qed.

Lemma training_rows_le m sp : training_rows m sp ≤ length (rows m).
Proof. apply clamp_le. Qed.

(** ** The slice bound *)

Lemma clamp_nonneg n i : (0 ≤ i)%Z → clamp n i = Z.to_nat i `min` n.
Proof. intros H. unfold clamp. destruct (Z.ltb_spec i 0); lia. Qed.

Lemma clamp_negative n i :
  (i < 0)%Z → clamp n i = n - Z.to_nat (- i) `min` n.
Proof. intros H. unfold clamp. destruct (Z.ltb_spec i 0); lia. Qed.

Lemma take_clamp {A} (l : list A) i :
  (0 ≤ i)%Z → take (clamp (length l) i) l = take (Z.to_nat i) l.
Proof.
  intros H. rewrite clamp_nonneg by done.
  destruct (decide (Z.to_nat i ≤ length l)) as [Hle|Hgt].
  - by rewrite Nat.min_l.
  - rewrite Nat.min_r by lia. by rewrite !take_ge by lia.
Qed.

Lemma drop_clamp {A} (l : list A) i :
  (0 ≤ i)%Z → drop (clamp (length l) i) l = drop (Z.to_nat i) l.
Proof.
  intros H. rewrite clamp_nonneg by done.
  destruct (decide (Z.to_nat i ≤ length l)) as [Hle|Hgt].
  - by rewrite Nat.min_l.
  - rewrite Nat.min_r by lia. by rewrite !drop_ge by lia.
Qed.

Lemma mean_values_0 m sp : 2 ≤ ncols m → mean_values m sp !! 0 = Some (Some 0%R).
Proof.
  intros Hm. unfold mean_values.
  apply list_lookup_insert_eq. rewrite length_reduce_axis0.
  unfold train_features, features. cbn [ncols]. lia.
Qed.

Lemma sigma_values_0 m sp : 2 ≤ ncols m → sigma_values m sp !! 0 = Some (Some 1%R).
Proof.
  intros Hm. unfold sigma_values.
  apply list_lookup_insert_eq. rewrite length_reduce_axis0.
  unfold train_features, features. cbn [ncols]. lia.
Qed.

Lemma length_rows_train m sp :
  length (rows (train_features m sp)) = training_rows m sp.
Proof.
  unfold train_features, features. cbn [rows].
  rewrite length_map, length_take. pose proof (training_rows_le m sp). lia.
Qed.

Lemma length_rows_test m sp :
  length (rows (test_features m sp)) = length (rows m) - training_rows m sp.
Proof.
  unfold test_features, features. cbn [rows].
  by rewrite length_map, length_drop.
Qed.

(** ** From what a run left to how it went *)

(** When [int(n * train_fraction)] raises, so does the function, and the
    store is as it was. *)
Lemma split_and_preprocess_body_no_int σ d b f e :
  σ !! d = Some b →
  product_int (match b with Buf1 v => length v | Buf2 m => length (rows m) end) f
  = inl e →
  split_and_preprocess_body d f σ = (σ, inl e).
Proof.
  intros Hd He. unfold split_and_preprocess_body, shape0.
  rewrite (bind_run _ _ _ _ _ (bind_run _ _ _ _ _ (load_run _ _ _ Hd))).
  cbn [ret]. erewrite bind_raise; [done|]. by rewrite int_of_product_run, He.
Qed.

Lemma split_and_preprocess_raise σ d f σ' e :
  split_and_preprocess_body d f σ = (σ', inl e) →
  split_and_preprocess d f σ = (σ', inl e).
Proof. intros H. unfold split_and_preprocess. by rewrite (bind_raise _ _ _ _ _ H). Qed.

Lemma statistics_inv σ d m f sp mu sg :
  σ !! d = Some (Buf2 m) → 2 ≤ ncols m →
  statistics (split_and_preprocess_body d f σ) = Some (sp, mu, sg) →
  product_int (length (rows m)) f = inr sp
  ∧ mu = mean_values m sp ∧ sg = sigma_values m sp.
Proof.
  intros Hd Hm H. destruct (product_int (length (rows m)) f) as [e|sp'] eqn:E.
  - by rewrite (split_and_preprocess_body_no_int _ _ (Buf2 m) _ e) in H.
  - rewrite (statistics_run _ _ m f sp') in H by done.
    by injection H as <- <- <-.
Qed.

Lemma returned_inv σ d m f X l Y l' :
  σ !! d = Some (Buf2 m) → 2 ≤ ncols m →
  returned (split_and_preprocess d f σ) = Some (X, l, Y, l') →
  ∃ sp, product_int (length (rows m)) f = inr sp
        ∧ X = over (sigma_values m sp) (minus (mean_values m sp) (train_features m sp))
        ∧ l = column (ncols m - 1) (take (training_rows m sp) (rows m))
        ∧ Y = over (sigma_values m sp) (minus (mean_values m sp) (test_features m sp))
        ∧ l' = column (ncols m - 1) (drop (training_rows m sp) (rows m)).
Proof.
  intros Hd Hm H. destruct (product_int (length (rows m)) f) as [e|sp] eqn:E.
  - rewrite (split_and_preprocess_raise _ _ _ σ e) in H; [done|].
    by apply (split_and_preprocess_body_no_int _ _ (Buf2 m)).
  - rewrite (returned_run _ _ m f sp) in H by done.
    injection H as <- <- <- <-. by exists sp.
Qed.

(** With a fraction between 0 and 1 the function gets its slice bound, which
    is not negative. *)
Lemma product_int_well_shaped m x :
  well_shaped m → (0 <= x <= 1)%R →
  ∃ sp, product_int (length (rows m)) (Finite x) = inr sp ∧ (0 ≤ sp)%Z.
Proof. intros (_ & _ & Hn) Hx. by apply product_int_fraction. Qed.

(** * The claims on split_and_preprocess *)

(** C2, as amended.  With a fraction [f] between 0 and 1 and a matrix of [n]
    rows the call returns; the training matrix has [split_point] rows, the
    value of [int(n*f)] in double arithmetic (at most [n] of them), the test
    matrix has the other rows, and the two sizes add up to [n].  With fewer
    than [2^53] rows, [split_point] is floor(n*f) or floor(n*f) + 1, and it
    is floor(n*f) when the product [n*f] is a double. *)
Theorem split_sizes σ d m f :
  σ !! d = Some (Buf2 m) → well_shaped m → (0 <= f <= 1)%R →
  ∃ sp mu sg X l Y l',
    statistics (split_and_preprocess_body d (Finite f) σ) = Some (sp, mu, sg)
    ∧ returned (split_and_preprocess d (Finite f) σ) = Some (X, l, Y, l')
    ∧ product_int (length (rows m)) (Finite f) = inr sp
    ∧ length (rows X) = Z.to_nat sp `min` length (rows m)
    ∧ length (rows Y) = length (rows m) - length (rows X)
    ∧ length (rows X) + length (rows Y) = length (rows m)
    ∧ ((Z.of_nat (length (rows m)) < 2 ^ 53)%Z →
       length (rows X) = Z.to_nat sp
       ∧ (Int_part (INR (length (rows m)) * f) ≤ sp
          ≤ Int_part (INR (length (rows m)) * f) + 1)%Z
       ∧ (representable (INR (length (rows m)) * f) →
          sp = Int_part (INR (length (rows m)) * f))).
Proof.
  intros Hd Hw Hf. pose proof Hw as (Hm & _ & Hn).
  destruct (product_int_well_shaped m f Hw Hf) as (sp & Hsp & H0).
  exists sp. do 6 eexists.
  split; [by apply (statistics_run _ _ m)|].
  split; [by apply (returned_run _ _ m)|]. split; [done|].
  rewrite !length_rows_over_minus, length_rows_train, length_rows_test.
  unfold training_rows. rewrite clamp_nonneg by done.
  split; [done|]. split; [done|]. split; [lia|].
  intros H53. destruct (product_int_small _ f H53 Hf) as (sp' & Hsp' & Hfl & Hb).
  rewrite Hsp in Hsp'. injection Hsp' as <-.
  split; [lia|]. split; [done|]. intros Hrep.
  rewrite (product_int_representable _ _ H53 Hrep) in Hsp. injection Hsp as <-.
  apply trunc_nonneg. pose proof (pos_INR (length (rows m))).
  apply Rmult_le_pos; lra.
Qed.

Lemma well_shaped_ten_samples : well_shaped ten_samples.
Proof. split; [simpl; lia|]. split; [by repeat constructor|done]. Qed.

(** C2, as stated, fails on ten samples with the double nearest to 0.7 as
    the fraction: the product [10 * f] lies below 7 and is rounded to the
    double 7.0, so that the training matrix gets 7 rows where floor(n*f) is
    6. *)
Lemma split_size_is_not_floor :
  well_shaped ten_samples ∧ representable seven_tenths
  ∧ (0 <= seven_tenths <= 1)%R
  ∧ ∃ X l Y l',
      returned (split_and_preprocess 0 (Finite seven_tenths) [Buf2 ten_samples])
      = Some (X, l, Y, l')
      ∧ length (rows X) = 7
      ∧ Z.to_nat (Int_part (INR (length (rows ten_samples)) * seven_tenths)) = 6.
Proof.
  split; [apply well_shaped_ten_samples|].
  split; [apply representable_seven_tenths|].
  split; [unfold seven_tenths; lra|].
  do 4 eexists.
  split; [apply (returned_run [Buf2 ten_samples] 0 ten_samples _ 7 eq_refl
                   product_int_ten_seven_tenths); simpl; lia|].
  split.
  - by rewrite length_rows_over_minus, length_rows_train.
  - change (length (rows ten_samples)) with 10.
    by rewrite floor_ten_seven_tenths.
Qed.

(** C10.  With a fraction between 0 and 1 the call returns, and the
    training matrix has as many rows as there are training labels, the test
    matrix as many rows as there are test labels (an empty partition
    included).  The row counts agree whenever the call returns, whatever the
    fraction. *)
Theorem features_match_labels σ d m :
  σ !! d = Some (Buf2 m) → well_shaped m →
  (∀ f, (0 <= f <= 1)%R →
     ∃ X l Y l',
       returned (split_and_preprocess d (Finite f) σ) = Some (X, l, Y, l')
       ∧ length (rows X) = length l
       ∧ length (rows Y) = length l')
  ∧ ∀ f X l Y l',
      returned (split_and_preprocess d f σ) = Some (X, l, Y, l') →
      length (rows X) = length l ∧ length (rows Y) = length l'.
Proof.
  intros Hd Hw. pose proof Hw as (Hm & _ & _).
  assert (Hlen : ∀ sp,
    length (rows (over (sigma_values m sp)
                    (minus (mean_values m sp) (train_features m sp))))
    = length (column (ncols m - 1) (take (training_rows m sp) (rows m)))
    ∧ length (rows (over (sigma_values m sp)
                      (minus (mean_values m sp) (test_features m sp))))
      = length (column (ncols m - 1) (drop (training_rows m sp) (rows m)))).
  { intros sp.
    rewrite !length_rows_over_minus, length_rows_train, length_rows_test.
    rewrite !length_column, length_take, length_drop.
    pose proof (training_rows_le m sp). lia. }
  split.
  - intros f Hf. destruct (product_int_well_shaped m f Hw Hf) as (sp & Hsp & _).
    do 4 eexists. split; [by apply (returned_run _ _ m _ sp)|]. apply Hlen.
  - intros f X l Y l' (sp & Hsp & -> & -> & -> & ->)%(returned_inv _ _ m); [|done..].
    apply Hlen.
Qed.

(** C3.  With a fraction between 0 and 1 the call returns, and column 0
    of the returned training matrix is column 0 of the first rows of the
    input, column 0 of the returned test matrix is column 0 of the remaining
    rows, entry for entry.  The columns are these whenever the call returns,
    whatever the fraction. *)
Theorem categorical_column_unmodified σ d m :
  σ !! d = Some (Buf2 m) → well_shaped m →
  (∀ f, (0 <= f <= 1)%R →
     ∃ X l Y l',
       returned (split_and_preprocess d (Finite f) σ) = Some (X, l, Y, l')
       ∧ column 0 (rows X) = column 0 (take (length (rows X)) (rows m))
       ∧ column 0 (rows Y) = column 0 (drop (length (rows X)) (rows m)))
  ∧ ∀ f X l Y l',
      returned (split_and_preprocess d f σ) = Some (X, l, Y, l') →
      column 0 (rows X) = column 0 (take (length (rows X)) (rows m))
      ∧ column 0 (rows Y) = column 0 (drop (length (rows X)) (rows m)).
Proof.
  intros Hd Hw. pose proof Hw as (Hm & _ & _).
  assert (Hcol : ∀ sp,
    let X := over (sigma_values m sp)
               (minus (mean_values m sp) (train_features m sp)) in
    let Y := over (sigma_values m sp)
               (minus (mean_values m sp) (test_features m sp)) in
    column 0 (rows X) = column 0 (take (length (rows X)) (rows m))
    ∧ column 0 (rows Y) = column 0 (drop (length (rows X)) (rows m))).
  { intros sp. cbv zeta.
    rewrite length_rows_over_minus, length_rows_train.
    rewrite !(column_normalized _ _ _ 0 _ _ (mean_values_0 m sp Hm)
                (sigma_values_0 m sp Hm)).
    rewrite !map_xdiv_xsub_0_1.
    unfold train_features, test_features.
    by rewrite !column_features by lia. }
  split.
  - intros f Hf. destruct (product_int_well_shaped m f Hw Hf) as (sp & Hsp & _).
    do 4 eexists. split; [by apply (returned_run _ _ m _ sp)|]. apply Hcol.
  - intros f X l Y l' (sp & Hsp & -> & -> & -> & ->)%(returned_inv _ _ m); [|done..].
    apply Hcol.
Qed.

Lemma sigma_values_lookup m sp j s :
  1 ≤ j → sigma_values m sp !! j = Some s →
  j < ncols m - 1 ∧ s = xstd (column j (rows (train_features m sp))).
Proof.
  intros Hj H. unfold sigma_values in H.
  rewrite list_lookup_insert_ne in H by lia.
  pose proof (lookup_lt_Some _ _ _ H) as Hlt.
  rewrite length_reduce_axis0 in Hlt.
  rewrite reduce_axis0_lookup in H by done.
  split; [done|]. by injection H.
Qed.

Lemma mean_values_lookup m sp j :
  1 ≤ j → j < ncols m - 1 →
  mean_values m sp !! j = Some (xmean (column j (rows (train_features m sp)))).
Proof.
  intros Hj Hlt. unfold mean_values.
  rewrite list_lookup_insert_ne by lia. by apply reduce_axis0_lookup.
Qed.

(** C1.  Let [j >= 1] be a column for which [sigma[j]], the deviation the
    function computes from the training rows, is a non-zero real.  Then
    column [j] of the returned training matrix has mean 0 and standard
    deviation 1, exactly. *)
Theorem normalized_training_column σ d m f j sp mu sg s :
  σ !! d = Some (Buf2 m) → well_shaped m → 1 ≤ j →
  statistics (split_and_preprocess_body d f σ) = Some (sp, mu, sg) →
  sg !! j = Some (Some s) → s ≠ 0%R →
  ∃ X l Y l',
    returned (split_and_preprocess d f σ) = Some (X, l, Y, l')
    ∧ xmean (column j (rows X)) = Some 0%R
    ∧ xstd (column j (rows X)) = Some 1%R.
Proof.
  intros Hd [Hm _] Hj Hst Hsg Hs.
  destruct (statistics_inv _ _ _ _ _ _ _ Hd Hm Hst) as (Hsp & -> & ->).
  destruct (sigma_values_lookup _ _ _ _ Hj Hsg) as [Hlt Hstd].
  do 4 eexists. split; [by apply (returned_run _ _ m _ sp)|].
  rewrite (column_normalized _ _ _ j _ _ (mean_values_lookup m sp j Hj Hlt) Hsg).
  by apply standardized_column.
Qed.

(** C4.  Two matrices of the same shape whose rows before the split point
    are the same give the same [mean] and [sigma], the same training matrix
    and the same training labels: the rows of the test partition have no
    part in them. *)
Theorem statistics_from_training_rows σ1 d1 m1 σ2 d2 m2 f sp mu sg :
  σ1 !! d1 = Some (Buf2 m1) → σ2 !! d2 = Some (Buf2 m2) →
  well_shaped m1 → well_shaped m2 →
  ncols m1 = ncols m2 → length (rows m1) = length (rows m2) →
  statistics (split_and_preprocess_body d1 f σ1) = Some (sp, mu, sg) →
  take (clamp (length (rows m1)) sp) (rows m1)
  = take (clamp (length (rows m2)) sp) (rows m2) →
  statistics (split_and_preprocess_body d2 f σ2) = Some (sp, mu, sg)
  ∧ ∃ X l Y1 l1 Y2 l2,
      returned (split_and_preprocess d1 f σ1) = Some (X, l, Y1, l1)
      ∧ returned (split_and_preprocess d2 f σ2) = Some (X, l, Y2, l2).
Proof.
  intros Hd1 Hd2 [Hm1 _] [Hm2 _] Hc Hn Hst Htake.
  destruct (statistics_inv _ _ _ _ _ _ _ Hd1 Hm1 Hst) as (Hsp & -> & ->).
  pose proof Hsp as Hsp2. rewrite Hn in Hsp2.
  fold (training_rows m1 sp) in Htake. fold (training_rows m2 sp) in Htake.
  assert (HT : train_features m2 sp = train_features m1 sp).
  { unfold train_features, features. by rewrite <- Hc, Htake. }
  assert (Hmu : mean_values m2 sp = mean_values m1 sp).
  { unfold mean_values. by rewrite HT. }
  assert (Hsg : sigma_values m2 sp = sigma_values m1 sp).
  { unfold sigma_values. by rewrite HT. }
  split.
  - rewrite (statistics_run _ _ m2 _ sp) by done. by rewrite Hmu, Hsg.
  - do 6 eexists. split; [by apply (returned_run _ _ m1 _ sp)|].
    rewrite (returned_run _ _ m2 _ sp) by done.
    by rewrite Hmu, Hsg, HT, <- Hc, <- Htake.
Qed.

Lemma take_removelast {A} (row : list A) c :
  length row = S c → take c row = removelast row.
Proof.
  intros H. rewrite removelast_firstn_len. by rewrite H.
Qed.

Lemma lookup_last {A} (row : list A) c :
  length row = S c → row !! c = last row.
Proof. intros H. rewrite last_lookup. by rewrite H. Qed.

Lemma rows_normalized m mu sg rs :
  Forall (λ row, length row = ncols m) rs → 1 ≤ ncols m →
  rows (over sg (minus mu (features m rs)))
  = map (λ row, zip_with xdiv (zip_with xsub (removelast row) mu) sg) rs.
Proof.
  intros Hwf Hm. unfold over, minus, features. cbn [rows]. rewrite !map_map.
  apply Forall_fmap_ext_1. eapply Forall_impl; [exact Hwf|].
  intros row Hrow. cbn beta in *.
  rewrite (take_removelast row (ncols m - 1)); [done|lia].
Qed.

Lemma column_last m rs :
  Forall (λ row, length row = ncols m) rs → 1 ≤ ncols m →
  column (ncols m - 1) rs = map (λ row, default None (last row)) rs.
Proof.
  intros Hwf Hm. unfold column.
  apply Forall_fmap_ext_1. eapply Forall_impl; [exact Hwf|].
  intros row Hrow. cbn beta in *.
  rewrite (lookup_last row (ncols m - 1)); [done|lia].
Qed.

(** C5.  With a fraction between 0 and 1, the training labels are the last
    entries of the first [split_point] rows and the test labels the last
    entries of the remaining rows, in the order of the input; the rows of
    the two feature matrices come from the same rows, in the same order,
    each without its last entry (and then normalized with [mean] and
    [sigma]), so that both matrices have one column less than the input. *)
Theorem contiguous_split σ d m f :
  σ !! d = Some (Buf2 m) → well_shaped m → (0 <= f <= 1)%R →
  ∃ sp mu sg X l Y l',
    statistics (split_and_preprocess_body d (Finite f) σ) = Some (sp, mu, sg)
    ∧ returned (split_and_preprocess d (Finite f) σ) = Some (X, l, Y, l')
    ∧ l = map (λ row, default None (last row)) (take (Z.to_nat sp) (rows m))
    ∧ l' = map (λ row, default None (last row)) (drop (Z.to_nat sp) (rows m))
    ∧ rows X = map (λ row, zip_with xdiv (zip_with xsub (removelast row) mu) sg)
                 (take (Z.to_nat sp) (rows m))
    ∧ rows Y = map (λ row, zip_with xdiv (zip_with xsub (removelast row) mu) sg)
                 (drop (Z.to_nat sp) (rows m))
    ∧ ncols X = ncols m - 1 ∧ ncols Y = ncols m - 1
    ∧ Forall (λ row, length row = ncols m - 1) (rows X)
    ∧ Forall (λ row, length row = ncols m - 1) (rows Y).
Proof.
  intros Hd Hw Hf. pose proof Hw as (Hm & Hwf & _).
  destruct (product_int_well_shaped m f Hw Hf) as (sp & Hsp & H0).
  assert (Hwt : Forall (λ row, length row = ncols m) (take (training_rows m sp) (rows m)))
    by by apply Forall_take.
  assert (Hwd : Forall (λ row, length row = ncols m) (drop (training_rows m sp) (rows m)))
    by by apply Forall_drop.
  assert (Hlen : ∀ rs, Forall (λ row, length row = ncols m) rs →
            Forall (λ row, length row = ncols m - 1)
              (map (λ row, zip_with xdiv
                             (zip_with xsub (removelast row) (mean_values m sp))
                             (sigma_values m sp)) rs)).
  { intros rs Hrs. apply Forall_fmap. eapply Forall_impl; [exact Hrs|].
    intros row Hrow. unfold compose. cbn beta in *.
    rewrite !length_zip_with, <- (take_removelast row (ncols m - 1)) by lia.
    rewrite length_take. unfold mean_values, sigma_values.
    rewrite !length_insert, !length_reduce_axis0.
    unfold train_features, features. cbn [ncols]. lia. }
  exists sp. do 6 eexists. split; [by apply (statistics_run _ _ m)|].
  split; [by apply (returned_run _ _ m)|].
  rewrite <- (take_clamp (rows m)), <- (drop_clamp (rows m)) by done.
  fold (training_rows m sp).
  unfold train_features, test_features.
  rewrite !rows_normalized, !column_last by (done || lia).
  repeat split; auto.
Qed.

(** ** The runs that raise *)

(** [data] is no array. *)
Lemma split_and_preprocess_body_no_array σ d f :
  σ !! d = None →
  split_and_preprocess_body d f σ = (σ, inl AttributeError).
Proof.
  intros H. unfold split_and_preprocess_body, shape0.
  assert (Hl : load d σ = (σ, inl AttributeError)).
  { unfold load. by rewrite H. }
  by rewrite (bind_raise _ _ _ _ _ (bind_raise _ _ _ _ _ Hl)).
Qed.

(** [data] has one axis only: [data[:split_point, -1]] raises. *)
Lemma split_and_preprocess_body_vector σ d v f sp :
  σ !! d = Some (Buf1 v) → product_int (length v) f = inr sp →
  split_and_preprocess_body d f σ = (σ, inl IndexError).
Proof.
  intros Hd Hsp. unfold split_and_preprocess_body, shape0.
  rewrite (bind_run _ _ _ _ _ (bind_run _ _ _ _ _ (load_run _ _ _ Hd))).
  cbn [ret]. rewrite (bind_run _ _ σ σ sp) by (by rewrite int_of_product_run, Hsp).
  erewrite bind_raise; [done|].
  unfold getitem_slice_index.
  by rewrite (bind_run _ _ _ _ _ (load_run _ _ _ Hd)).
Qed.

(** There is no column at all: [data[:split_point, -1]] raises. *)
Lemma split_and_preprocess_body_no_column σ d m f sp :
  σ !! d = Some (Buf2 m) → product_int (length (rows m)) f = inr sp →
  ncols m = 0 →
  split_and_preprocess_body d f σ = (σ, inl IndexError).
Proof.
  intros Hd Hsp H0. unfold split_and_preprocess_body.
  rewrite (bind_run _ _ _ _ _ (shape0_run _ _ _ Hd)).
  rewrite (bind_run _ _ σ σ sp) by (by rewrite int_of_product_run, Hsp).
  erewrite bind_raise; [done|].
  unfold getitem_slice_index.
  rewrite (bind_run _ _ _ _ _ (load_run _ _ _ Hd)). by rewrite H0.
Qed.

(** Whatever the arguments, the call leaves a store that begins with the
    store it started from. *)
Lemma split_and_preprocess_extends σ d f :
  ∃ t, (split_and_preprocess d f σ).1 = σ ++ t.
Proof.
  assert (Hraise : ∀ e, split_and_preprocess_body d f σ = (σ, inl e) →
                        ∃ t, (split_and_preprocess d f σ).1 = σ ++ t).
  { intros e He. exists []. rewrite (split_and_preprocess_raise _ _ _ _ _ He).
    by rewrite app_nil_r. }
  destruct (σ !! d) as [b|] eqn:Hd;
    [|by eapply Hraise, split_and_preprocess_body_no_array].
  destruct (product_int (match b with
                         | Buf1 v => length v
                         | Buf2 m => length (rows m)
                         end) f) as [e|sp] eqn:Hsp;
    [by eapply Hraise, split_and_preprocess_body_no_int|].
  destruct b as [v|m];
    [by eapply Hraise, split_and_preprocess_body_vector|].
  destruct (decide (ncols m = 0)) as [H0|H0];
    [by eapply Hraise, split_and_preprocess_body_no_column|].
  destruct (decide (ncols m = 1)) as [H1|H1].
  - eexists. erewrite split_and_preprocess_raise; [done|].
    by apply (split_and_preprocess_body_label_only _ _ m _ sp).
  - eexists. rewrite (split_and_preprocess_run _ _ m _ sp) by (done || lia). done.
Qed.

(** C7.  The call writes to no buffer that existed before it: the store it
    leaves begins with the store it started from, and in particular the
    buffer of [data] holds what it held, whether the call returns or
    raises. *)
Theorem input_unchanged σ d f :
  take (length σ) (split_and_preprocess d f σ).1 = σ
  ∧ (split_and_preprocess d f σ).1 !! d = σ !! d.
Proof.
  destruct (split_and_preprocess_extends σ d f) as [t Ht]. rewrite Ht.
  split; [by rewrite take_app_length|].
  destruct (σ !! d) as [b|] eqn:Hd.
  - by apply lookup_app_l_Some.
  - rewrite (split_and_preprocess_raise _ _ _ σ AttributeError) in Ht
      by by apply split_and_preprocess_body_no_array.
    cbn in Ht. apply (f_equal length) in Ht. rewrite length_app in Ht.
    destruct t; [|simpl in Ht; lia]. by rewrite app_nil_r.
Qed.

(** ** Evaluating the function on finite columns *)

Lemma INR_length_ne_0 {A} (xs : list A) : xs ≠ [] → INR (length xs) ≠ 0%R.
Proof. destruct xs; [done|]. intros _. apply not_0_INR. done. Qed.

Lemma xmean_finite xs : xs ≠ [] → xmean (map Some xs) = Some (Rmean xs).
Proof.
  intros H. unfold xmean. rewrite xsum_finite, length_map.
  by apply xdiv_finite, INR_length_ne_0.
Qed.

Lemma Rsum_squares_nonneg c xs :
  (0 <= Rsum (map (λ x, ((x - c) * (x - c))%R) xs))%R.
Proof.
  induction xs as [|x xs IH]; [simpl; lra|].
  change (0 <= (x - c) * (x - c) + Rsum (map (λ x, ((x - c) * (x - c))%R) xs))%R.
  pose proof (Rle_0_sqr (x - c)) as Hsq. unfold Rsqr in Hsq. lra.
Qed.

Lemma Rvar_nonneg xs : (0 <= Rvar xs)%R.
Proof.
  unfold Rvar. apply Rmult_le_pos; [apply Rsum_squares_nonneg|].
  destruct xs; [simpl; rewrite Rinv_0; lra|].
  left. apply Rinv_0_lt_compat, lt_0_INR. simpl. lia.
Qed.

Lemma xstd_finite xs : xs ≠ [] → xstd (map Some xs) = Some (sqrt (Rvar xs)).
Proof.
  intros H. unfold xstd. rewrite xmean_finite by done. cbv zeta.
  rewrite map_deviation_finite, xsum_finite, length_map.
  rewrite xdiv_finite by by apply INR_length_ne_0.
  apply xsqrt_finite, Rvar_nonneg.
Qed.

(** *** The function on [example] with half of the rows for training *)

Lemma well_shaped_example : well_shaped example.
Proof. split; [simpl; lia|]. split; [by repeat constructor|done]. Qed.

Lemma product_int_example : product_int 4 (Finite (1 / 2)) = inr 2%Z.
Proof. apply product_int_IZR; [done|done|simpl; lra]. Qed.

Lemma finite_example : finite example.
Proof. unfold finite. simpl. repeat constructor; by eexists. Qed.

Lemma training_rows_example : training_rows example 2 = 2.
Proof. reflexivity. Qed.

Lemma train_features_example :
  train_features example 2
  = Mat 2 [[Some 0%R; Some 1%R]; [Some 1%R; Some 3%R]].
Proof. unfold train_features. by rewrite training_rows_example. Qed.

Lemma Rvar_example : Rvar [1%R; 3%R] = 1%R.
Proof. unfold Rvar, Rmean, Rsum. simpl. field. Qed.

Lemma sigma_values_example :
  sigma_values example 2 = [Some 1%R; Some 1%R].
Proof.
  unfold sigma_values. rewrite train_features_example.
  change (reduce_axis0 xstd (Mat 2 [[Some 0%R; Some 1%R]; [Some 1%R; Some 3%R]]))
    with [xstd (map Some [0%R; 1%R]); xstd (map Some [1%R; 3%R])].
  rewrite !xstd_finite by done. cbn [insert list_insert].
  by rewrite Rvar_example, sqrt_1.
Qed.

Lemma mean_values_example :
  mean_values example 2 = [Some 0%R; Some 2%R].
Proof.
  unfold mean_values. rewrite train_features_example.
  change (reduce_axis0 xmean (Mat 2 [[Some 0%R; Some 1%R]; [Some 1%R; Some 3%R]]))
    with [xmean (map Some [0%R; 1%R]); xmean (map Some [1%R; 3%R])].
  rewrite !xmean_finite by done. cbn [insert list_insert].
  do 3 f_equal. unfold Rmean, Rsum. simpl. field.
Qed.

Lemma statistics_example :
  statistics (split_and_preprocess_body 0 (Finite (1 / 2)) [Buf2 example])
  = Some (2%Z, [Some 0%R; Some 2%R], [Some 1%R; Some 1%R]).
Proof.
  rewrite (statistics_run [Buf2 example] 0 example _ 2 eq_refl product_int_example)
    by (simpl; lia).
  by rewrite mean_values_example, sigma_values_example.
Qed.

Lemma returned_example :
  returned (split_and_preprocess 0 (Finite (1 / 2)) [Buf2 example])
  = Some (Mat 2 [[Some 0%R; Some (-1)%R]; [Some 1%R; Some 1%R]],
          [Some 5%R; Some 6%R],
          Mat 2 [[Some (-1)%R; Some 3%R]; [Some 0%R; Some 7%R]],
          [Some 7%R; Some 8%R]).
Proof.
  rewrite (returned_run [Buf2 example] 0 example _ 2 eq_refl product_int_example)
    by (simpl; lia).
  unfold test_features.
  rewrite training_rows_example, train_features_example.
  rewrite mean_values_example, sigma_values_example.
  unfold over, minus, features, column. cbn.
  destruct (Req_dec_T 1 0) as [H|_]; [lra|].
  repeat f_equal; lra.
Qed.

(** *** The function on [constant_example] *)

Lemma well_shaped_constant_example : well_shaped constant_example.
Proof. split; [simpl; lia|]. split; [by repeat constructor|done]. Qed.

Lemma finite_constant_example : finite constant_example.
Proof. unfold finite. simpl. repeat constructor; by eexists. Qed.

Lemma training_rows_constant_example : training_rows constant_example 2 = 2.
Proof. reflexivity. Qed.

Lemma train_features_constant_example :
  train_features constant_example 2
  = Mat 2 [[Some 0%R; Some 1%R]; [Some 1%R; Some 1%R]].
Proof. unfold train_features. by rewrite training_rows_constant_example. Qed.

Lemma Rvar_constant_example : Rvar [1%R; 1%R] = 0%R.
Proof. unfold Rvar, Rmean, Rsum. simpl. field. Qed.

Lemma sigma_values_constant_example :
  sigma_values constant_example 2 = [Some 1%R; Some 0%R].
Proof.
  unfold sigma_values. rewrite train_features_constant_example.
  change (reduce_axis0 xstd (Mat 2 [[Some 0%R; Some 1%R]; [Some 1%R; Some 1%R]]))
    with [xstd (map Some [0%R; 1%R]); xstd (map Some [1%R; 1%R])].
  rewrite !xstd_finite by done. cbn [insert list_insert].
  by rewrite Rvar_constant_example, sqrt_0.
Qed.

Lemma mean_values_constant_example :
  mean_values constant_example 2 = [Some 0%R; Some 1%R].
Proof.
  unfold mean_values. rewrite train_features_constant_example.
  change (reduce_axis0 xmean (Mat 2 [[Some 0%R; Some 1%R]; [Some 1%R; Some 1%R]]))
    with [xmean (map Some [0%R; 1%R]); xmean (map Some [1%R; 1%R])].
  rewrite !xmean_finite by done. cbn [insert list_insert].
  do 3 f_equal. unfold Rmean, Rsum. simpl. field.
Qed.

Lemma statistics_constant_example :
  statistics
    (split_and_preprocess_body 0 (Finite (1 / 2)) [Buf2 constant_example])
  = Some (2%Z, [Some 0%R; Some 1%R], [Some 1%R; Some 0%R]).
Proof.
  rewrite (statistics_run [Buf2 constant_example] 0 constant_example _ 2 eq_refl product_int_example)
    by (simpl; lia).
  by rewrite mean_values_constant_example, sigma_values_constant_example.
Qed.

(** The measurement is divided by its deviation 0, in the training rows and
    in the test rows. *)
Lemma returned_constant_example :
  returned (split_and_preprocess 0 (Finite (1 / 2)) [Buf2 constant_example])
  = Some (Mat 2 [[Some 0%R; None]; [Some 1%R; None]],
          [Some 5%R; Some 6%R],
          Mat 2 [[Some (-1)%R; None]; [Some 0%R; None]],
          [Some 7%R; Some 8%R]).
Proof.
  rewrite (returned_run [Buf2 constant_example] 0 constant_example _ 2 eq_refl product_int_example)
    by (simpl; lia).
  unfold test_features.
  rewrite training_rows_constant_example, train_features_constant_example.
  rewrite mean_values_constant_example, sigma_values_constant_example.
  unfold over, minus, features, column. cbn.
  destruct (Req_dec_T 1 0) as [H|_]; [lra|].
  destruct (Req_dec_T 0 0) as [_|H]; [|done].
  repeat f_equal; lra.
Qed.

(** ** The claim that the function meets no error *)

(** C8, as amended.  On a matrix of the expected shape and with a fraction
    between 0 and 1 the call returns, it does not raise.  The division by
    [sigma] is not guarded; a zero divisor does not raise either, it leaves
    entries that are not finite. *)
Theorem no_error_on_well_shaped σ d m f :
  σ !! d = Some (Buf2 m) → well_shaped m → (0 <= f <= 1)%R →
  (∃ r, (split_and_preprocess d (Finite f) σ).2 = inr r)
  ∧ ∃ sp mu sg X l Y l',
      statistics (split_and_preprocess_body d (Finite f) σ) = Some (sp, mu, sg)
      ∧ returned (split_and_preprocess d (Finite f) σ) = Some (X, l, Y, l').
Proof.
  intros Hd Hw Hf. pose proof Hw as (Hm & _ & _).
  destruct (product_int_well_shaped m f Hw Hf) as (sp & Hsp & _). split.
  - rewrite (split_and_preprocess_run _ _ m _ sp) by done. by eexists.
  - exists sp. do 6 eexists.
    split; [by apply (statistics_run _ _ m)|by apply (returned_run _ _ m)].
Qed.

(** C8, as stated, fails on [constant_example] with the fraction 1/2: the
    matrix has the expected shape and finite entries, [sigma[1]] is 0, and
    the division by it is reached, which leaves entries that are not finite
    in both returned feature matrices. *)
Lemma division_by_zero_on_constant_feature :
  well_shaped constant_example ∧ finite constant_example
  ∧ statistics
      (split_and_preprocess_body 0 (Finite (1 / 2)) [Buf2 constant_example])
    = Some (2%Z, [Some 0%R; Some 1%R], [Some 1%R; Some 0%R])
  ∧ returned (split_and_preprocess 0 (Finite (1 / 2)) [Buf2 constant_example])
    = Some (Mat 2 [[Some 0%R; None]; [Some 1%R; None]],
            [Some 5%R; Some 6%R],
            Mat 2 [[Some (-1)%R; None]; [Some 0%R; None]],
            [Some 7%R; Some 8%R])
  ∧ ¬ finite (Mat 2 [[Some 0%R; None]; [Some 1%R; None]])
  ∧ ¬ finite (Mat 2 [[Some (-1)%R; None]; [Some 0%R; None]]).
Proof.
  split; [apply well_shaped_constant_example|].
  split; [apply finite_constant_example|].
  split; [apply statistics_constant_example|].
  split; [apply returned_constant_example|].
  split; unfold finite; cbn [rows]; intros H;
    apply Forall_cons_1 in H as [H _];
    apply Forall_cons_1 in H as [_ H];
    apply Forall_cons_1 in H as [[x Hx] _]; done.
Qed.

(** * The claims on TrainingHistory *)

Section History.
Import TrainingHistory.
Context {V : Type} (append_method : V → V → exn + V).
Local Abbreviation append := (TrainingHistory.append append_method).
Local Abbreviation on_epoch_end := (TrainingHistory.on_epoch_end append_method).
Local Abbreviation epochs := (TrainingHistory.epochs append_method).
Local Abbreviation training := (TrainingHistory.training append_method).
Implicit Types (self : gmap string (pyval V)) (logs : gmap string V).

Lemma append_run self name l x :
  self !! name = Some (List l) →
  append name x self = (<[name := List (l ++ [x])]> self, inr tt).
Proof. intros H. unfold append. by rewrite H. Qed.

(** One epoch on an object that has the two lists. *)
Lemma on_epoch_end_run self epoch logs a b :
  self !! "loss" = Some (List a) →
  self !! "validation_loss" = Some (List b) →
  ∃ self',
    on_epoch_end epoch logs self = (self', inr tt)
    ∧ self' !! "loss" = Some (List (a ++ option_list (logs !! "loss")))
    ∧ self' !! "validation_loss"
      = Some (List (b ++ option_list (logs !! "val_loss"))).
Proof.
  intros Ha Hb. unfold on_epoch_end.
  destruct (logs !! "loss") as [x|], (logs !! "val_loss") as [y|]; cbn [option_list].
  - rewrite (bind_run _ _ _ _ _ (append_run _ _ _ x Ha)).
    rewrite (append_run _ _ b) by by rewrite lookup_insert_ne.
    eexists. split; [done|].
    split; [by rewrite lookup_insert_ne, lookup_insert_eq|by rewrite lookup_insert_eq].
  - rewrite (bind_run _ _ _ _ _ (append_run _ _ _ x Ha)).
    eexists. split; [done|].
    split; [by rewrite lookup_insert_eq|by rewrite lookup_insert_ne, app_nil_r].
  - rewrite (bind_run _ _ self self tt eq_refl).
    rewrite (append_run _ _ b) by done.
    eexists. split; [done|].
    split; [by rewrite lookup_insert_ne, app_nil_r|by rewrite lookup_insert_eq].
  - exists self. by rewrite !app_nil_r.
Qed.

(** [append] writes to the one attribute it is called for. *)
Lemma append_frame self name x a :
  a ≠ name → (append name x self).1 !! a = self !! a.
Proof.
  intros H. unfold TrainingHistory.append.
  destruct (self !! name) as [[v|l]|]; try done.
  - destruct (append_method v x) as [e|v']; [done|].
    cbn [fst]. by rewrite lookup_insert_ne.
  - cbn [fst]. by rewrite lookup_insert_ne.
Qed.

Lemma epochs_run calls : ∀ self a b,
  self !! "loss" = Some (List a) →
  self !! "validation_loss" = Some (List b) →
  ∃ self',
    epochs calls self = (self', inr tt)
    ∧ self' !! "loss" = Some (List (a ++ omap (λ c, c.2 !! "loss") calls))
    ∧ self' !! "validation_loss"
      = Some (List (b ++ omap (λ c, c.2 !! "val_loss") calls)).
Proof.
  induction calls as [|[epoch logs] calls IH]; intros self a b Ha Hb.
  - exists self. by rewrite !app_nil_r.
  - destruct (on_epoch_end_run self epoch logs a b Ha Hb) as (s1 & Hrun & Ha1 & Hb1).
    destruct (IH s1 _ _ Ha1 Hb1) as (s2 & Hrun2 & Ha2 & Hb2).
    exists s2. cbn [epochs]. rewrite (bind_run _ _ _ _ _ Hrun).
    split; [done|]. rewrite Ha2, Hb2, <- !app_assoc. cbn [omap list_omap snd].
    by destruct (logs !! "loss"), (logs !! "val_loss").
Qed.
End History.

(** C6.  After [on_train_begin] and any sequence of [on_epoch_end] calls,
    none of which raises, [loss] is the list of the values under ['loss'] of
    those [logs] that have the key, in call order, and [validation_loss] is
    the same list for ['val_loss']. *)
Theorem training_history_accumulates {V : Type}
  (append_method : V → V → exn + V)
  (self : gmap string (TrainingHistory.pyval V)) (logs0 : gmap string V)
  (calls : list (Z * gmap string V)) :
  ∃ self',
    TrainingHistory.training append_method logs0 calls self = (self', inr tt)
    ∧ self' !! "loss"
      = Some (TrainingHistory.List (omap (λ c, c.2 !! "loss") calls))
    ∧ self' !! "validation_loss"
      = Some (TrainingHistory.List (omap (λ c, c.2 !! "val_loss") calls)).
Proof.
  unfold TrainingHistory.training.
  set (s0 := <["validation_loss" := TrainingHistory.List []]>
               (<["loss" := TrainingHistory.List []]> self)).
  assert (Ha0 : s0 !! "loss" = Some (TrainingHistory.List [])).
  { unfold s0. by rewrite lookup_insert_ne, lookup_insert_eq. }
  assert (Hb0 : s0 !! "validation_loss" = Some (TrainingHistory.List [])).
  { unfold s0. by rewrite lookup_insert_eq. }
  destruct (epochs_run append_method calls s0 [] [] Ha0 Hb0)
    as (self' & Hrun & Ha & Hb).
  exists self'. split; [|by split].
  by rewrite (bind_run (TrainingHistory.on_train_begin logs0) _ self s0 tt eq_refl).
Qed.

(** C9.  [on_epoch_end] leaves every attribute as it is, except [loss] when
    [logs] has the key ['loss'] and [validation_loss] when [logs] has the key
    ['val_loss']; this holds whether the call returns or raises. *)
Theorem on_epoch_end_frame {V : Type} (append_method : V → V → exn + V)
  (self : gmap string (TrainingHistory.pyval V)) (epoch : Z)
  (logs : gmap string V) (a : string) :
  (a = "loss" → logs !! "loss" = None) →
  (a = "validation_loss" → logs !! "val_loss" = None) →
  (TrainingHistory.on_epoch_end append_method epoch logs self).1 !! a
  = self !! a.
Proof.
  intros Hl Hv. unfold TrainingHistory.on_epoch_end, bind.
  destruct (logs !! "loss") as [x|] eqn:El.
  - assert (Ha : a ≠ "loss") by (intros ->; by specialize (Hl eq_refl)).
    pose proof (append_frame append_method self "loss" x a Ha) as H1.
    destruct (TrainingHistory.append append_method "loss" x self)
      as [s1 [e|[]]]; [done|].
    cbn [fst] in H1. rewrite <- H1.
    destruct (logs !! "val_loss") as [y|] eqn:Ev; [|done].
    apply append_frame. intros ->. by specialize (Hv eq_refl).
  - cbn [ret]. destruct (logs !! "val_loss") as [y|] eqn:Ev; [|done].
    apply append_frame. intros ->. by specialize (Hv eq_refl).
Qed.

(** * The theorems at concrete inputs *)

Lemma well_shaped_example_other_test : well_shaped example_other_test.
Proof. split; [simpl; lia|]. split; [by repeat constructor|done]. Qed.

Lemma normalized_training_column_witness :
  well_shaped example
  ∧ statistics (split_and_preprocess_body 0 (Finite (1 / 2)) [Buf2 example])
    = Some (2%Z, [Some 0%R; Some 2%R], [Some 1%R; Some 1%R])
  ∧ ∃ X l Y l',
      returned (split_and_preprocess 0 (Finite (1 / 2)) [Buf2 example])
      = Some (X, l, Y, l')
      ∧ xmean (column 1 (rows X)) = Some 0%R
      ∧ xstd (column 1 (rows X)) = Some 1%R.
Proof.
  split; [apply well_shaped_example|]. split; [apply statistics_example|].
  apply (normalized_training_column [Buf2 example] 0 example (Finite (1 / 2)) 1
           2%Z [Some 0%R; Some 2%R] [Some 1%R; Some 1%R] 1%R).
  - reflexivity.
  - apply well_shaped_example.
  - lia.
  - apply statistics_example.
  - reflexivity.
  - lra.
Defined.

Lemma split_sizes_witness :
  well_shaped example ∧ (0 <= 1 / 2 <= 1)%R
  ∧ ∃ sp mu sg X l Y l',
      statistics (split_and_preprocess_body 0 (Finite (1 / 2)) [Buf2 example])
      = Some (sp, mu, sg)
      ∧ returned (split_and_preprocess 0 (Finite (1 / 2)) [Buf2 example])
        = Some (X, l, Y, l')
      ∧ product_int (length (rows example)) (Finite (1 / 2)) = inr sp
      ∧ length (rows X) = Z.to_nat sp `min` length (rows example)
      ∧ length (rows Y) = length (rows example) - length (rows X)
      ∧ length (rows X) + length (rows Y) = length (rows example)
      ∧ ((Z.of_nat (length (rows example)) < 2 ^ 53)%Z →
         length (rows X) = Z.to_nat sp
         ∧ (Int_part (INR (length (rows example)) * (1 / 2)) ≤ sp
            ≤ Int_part (INR (length (rows example)) * (1 / 2)) + 1)%Z
         ∧ (representable (INR (length (rows example)) * (1 / 2)) →
            sp = Int_part (INR (length (rows example)) * (1 / 2)))).
Proof.
  split; [apply well_shaped_example|]. split; [lra|].
  apply (split_sizes [Buf2 example] 0 example (1 / 2)).
  - reflexivity.
  - apply well_shaped_example.
  - lra.
Defined.

Lemma features_match_labels_witness :
  well_shaped example ∧ (0 <= 1 / 2 <= 1)%R
  ∧ ∃ X l Y l',
      returned (split_and_preprocess 0 (Finite (1 / 2)) [Buf2 example])
      = Some (X, l, Y, l')
      ∧ length (rows X) = length l
      ∧ length (rows Y) = length l'.
Proof.
  split; [apply well_shaped_example|]. split; [lra|].
  apply (proj1 (features_match_labels [Buf2 example] 0 example eq_refl
                  well_shaped_example) (1 / 2)%R).
  lra.
Defined.

Lemma categorical_column_unmodified_witness :
  well_shaped example ∧ (0 <= 1 / 2 <= 1)%R
  ∧ ∃ X l Y l',
      returned (split_and_preprocess 0 (Finite (1 / 2)) [Buf2 example])
      = Some (X, l, Y, l')
      ∧ column 0 (rows X) = column 0 (take (length (rows X)) (rows example))
      ∧ column 0 (rows Y) = column 0 (drop (length (rows X)) (rows example)).
Proof.
  split; [apply well_shaped_example|]. split; [lra|].
  apply (proj1 (categorical_column_unmodified [Buf2 example] 0 example eq_refl
                  well_shaped_example) (1 / 2)%R).
  lra.
Defined.

Lemma statistics_from_training_rows_witness :
  take (clamp 4 2) (rows example) = take (clamp 4 2) (rows example_other_test)
  ∧ statistics
      (split_and_preprocess_body 0 (Finite (1 / 2)) [Buf2 example_other_test])
    = Some (2%Z, [Some 0%R; Some 2%R], [Some 1%R; Some 1%R])
  ∧ ∃ X l Y1 l1 Y2 l2,
      returned (split_and_preprocess 0 (Finite (1 / 2)) [Buf2 example])
      = Some (X, l, Y1, l1)
      ∧ returned
          (split_and_preprocess 0 (Finite (1 / 2)) [Buf2 example_other_test])
        = Some (X, l, Y2, l2).
Proof.
  split; [reflexivity|].
  apply (statistics_from_training_rows
           [Buf2 example] 0 example [Buf2 example_other_test] 0
           example_other_test (Finite (1 / 2)) 2%Z [Some 0%R; Some 2%R]
           [Some 1%R; Some 1%R]).
  - reflexivity.
  - reflexivity.
  - apply well_shaped_example.
  - apply well_shaped_example_other_test.
  - reflexivity.
  - reflexivity.
  - apply statistics_example.
  - reflexivity.
Defined.

Lemma contiguous_split_witness :
  well_shaped example ∧ (0 <= 1 / 2 <= 1)%R
  ∧ ∃ sp mu sg X l Y l',
      statistics (split_and_preprocess_body 0 (Finite (1 / 2)) [Buf2 example])
      = Some (sp, mu, sg)
      ∧ returned (split_and_preprocess 0 (Finite (1 / 2)) [Buf2 example])
        = Some (X, l, Y, l')
      ∧ l = map (λ row, default None (last row))
              (take (Z.to_nat sp) (rows example))
      ∧ l' = map (λ row, default None (last row))
               (drop (Z.to_nat sp) (rows example))
      ∧ rows X
        = map (λ row, zip_with xdiv (zip_with xsub (removelast row) mu) sg)
            (take (Z.to_nat sp) (rows example))
      ∧ rows Y
        = map (λ row, zip_with xdiv (zip_with xsub (removelast row) mu) sg)
            (drop (Z.to_nat sp) (rows example))
      ∧ ncols X = ncols example - 1 ∧ ncols Y = ncols example - 1
      ∧ Forall (λ row, length row = ncols example - 1) (rows X)
      ∧ Forall (λ row, length row = ncols example - 1) (rows Y).
Proof.
  split; [apply well_shaped_example|]. split; [lra|].
  apply (contiguous_split [Buf2 example] 0 example (1 / 2)).
  - reflexivity.
  - apply well_shaped_example.
  - lra.
Defined.

Lemma no_error_on_well_shaped_witness :
  well_shaped example ∧ (0 <= 1 / 2 <= 1)%R
  ∧ (∃ r, (split_and_preprocess 0 (Finite (1 / 2)) [Buf2 example]).2 = inr r)
  ∧ ∃ sp mu sg X l Y l',
      statistics (split_and_preprocess_body 0 (Finite (1 / 2)) [Buf2 example])
      = Some (sp, mu, sg)
      ∧ returned (split_and_preprocess 0 (Finite (1 / 2)) [Buf2 example])
        = Some (X, l, Y, l').
Proof.
  split; [apply well_shaped_example|]. split; [lra|].
  apply (no_error_on_well_shaped [Buf2 example] 0 example (1 / 2)).
  - reflexivity.
  - apply well_shaped_example.
  - lra.
Defined.

Lemma on_epoch_end_frame_witness :
  (TrainingHistory.on_epoch_end (λ _ _ : nat, inl AttributeError) 0
     ({["val_loss" := 7]} : gmap string nat)
     (<["validation_loss" := TrainingHistory.List []]>
        {["loss" := TrainingHistory.List [3]]}
        : gmap string (TrainingHistory.pyval nat))).1
    !! "loss"
  = (<["validation_loss" := TrainingHistory.List []]>
       {["loss" := TrainingHistory.List [3]]}
       : gmap string (TrainingHistory.pyval nat))
      !! "loss".
Proof.
  apply (on_epoch_end_frame (V:=nat)).
  - intros _. by apply lookup_singleton_ne.
  - intros H. discriminate H.
Defined.

(** * Further properties of split_and_preprocess *)

(** ** Which runs raise *)

Lemma product_int_raises n f e :
  product_int n f = inl e → e = OverflowError ∨ e = ValueError.
Proof.
  unfold product_int, float_of_int.
  destruct (round64 (IZR (Z.of_nat n))) as [a| |]; [|by intros [= <-]; left..].
  destruct (mul64 (Finite a) f) as [p| |]; cbn [int_of_float]; [done|..];
    intros [= <-]; auto.
Qed.

(** X1.  Which exception, and when, on a two-dimensional array.  When
    [int(n * train_fraction)] raises (a [ValueError] for a product that is
    nan, an [OverflowError] for one that is infinite or for a row count
    beyond the floats) the call raises the same, with the store as it was.
    Otherwise it raises exactly when the array has fewer than two columns,
    and what it raises then is an [IndexError]. *)
Theorem raises_exactly_on_narrow_matrix σ d m f :
  σ !! d = Some (Buf2 m) →
  match product_int (length (rows m)) f with
  | inl e =>
      split_and_preprocess d f σ = (σ, inl e)
      ∧ (e = OverflowError ∨ e = ValueError)
  | inr _ =>
      match (split_and_preprocess d f σ).2 with
      | inl e => e = IndexError ∧ ncols m < 2
      | inr _ => 2 ≤ ncols m
      end
  end.
Proof.
  intros Hd. destruct (product_int (length (rows m)) f) as [e|sp] eqn:Hsp.
  { split; [|by eapply product_int_raises].
    by apply split_and_preprocess_raise,
             (split_and_preprocess_body_no_int _ _ (Buf2 m)). }
  destruct (decide (ncols m = 0)) as [H0|H0];
    [|destruct (decide (ncols m = 1)) as [H1|H1]].
  - rewrite (split_and_preprocess_raise _ _ _ σ IndexError)
      by by apply (split_and_preprocess_body_no_column _ _ m _ sp).
    cbn. split; [done|lia].
  - erewrite split_and_preprocess_raise
      by by apply (split_and_preprocess_body_label_only _ _ m _ sp).
    cbn. split; [done|lia].
  - rewrite (split_and_preprocess_run _ _ m _ sp) by (done || lia). cbn. lia.
Qed.

(** ** The split for other fractions *)

Lemma rows_normalized_app m mu sg rs k :
  rows (over sg (minus mu (features m (take k rs))))
  ++ rows (over sg (minus mu (features m (drop k rs))))
  = rows (over sg (minus mu (features m rs))).
Proof.
  unfold over, minus, features. cbn [rows].
  by rewrite <- !map_app, take_drop.
Qed.

Lemma column_app j rs1 rs2 :
  column j (rs1 ++ rs2) = column j rs1 ++ column j rs2.
Proof. apply map_app. Qed.

(** X2.  Whenever the body reaches its [return] statement, whatever the
    fraction (negative or above 1 included), the two label vectors put end
    to end are the last column of the input, and the rows of the two
    feature matrices put end to end are the rows of the input in their
    order, each without its last entry and normalized: no sample is lost,
    repeated or moved. *)
Theorem outputs_partition_the_rows σ d m f sp mu sg :
  σ !! d = Some (Buf2 m) → well_shaped m →
  statistics (split_and_preprocess_body d f σ) = Some (sp, mu, sg) →
  ∃ X l Y l',
    returned (split_and_preprocess d f σ) = Some (X, l, Y, l')
    ∧ l ++ l' = map (λ row, default None (last row)) (rows m)
    ∧ rows X ++ rows Y
      = map (λ row, zip_with xdiv (zip_with xsub (removelast row) mu) sg)
          (rows m).
Proof.
  intros Hd (Hm & Hwf & _) Hst.
  destruct (statistics_inv _ _ _ _ _ _ _ Hd Hm Hst) as (Hsp & -> & ->).
  do 4 eexists. split; [by apply (returned_run _ _ m _ sp)|].
  split.
  - by rewrite <- column_app, take_drop, column_last by (done || lia).
  - unfold train_features, test_features.
    by rewrite rows_normalized_app, rows_normalized by (done || lia).
Qed.

(** X3.  With fewer than [2^53] rows, a fraction of 1 or more for which
    the function gets its split point puts every row into the training
    partition and leaves the test partition empty. *)
Theorem fraction_at_least_one σ d m f sp mu sg :
  σ !! d = Some (Buf2 m) → well_shaped m →
  (Z.of_nat (length (rows m)) < 2 ^ 53)%Z → (1 <= f)%R →
  statistics (split_and_preprocess_body d (Finite f) σ) = Some (sp, mu, sg) →
  ∃ X l Y l',
    returned (split_and_preprocess d (Finite f) σ) = Some (X, l, Y, l')
    ∧ length (rows X) = length (rows m) ∧ length l = length (rows m)
    ∧ rows Y = [] ∧ l' = [].
Proof.
  intros Hd [Hm _] Hn Hf Hst.
  destruct (statistics_inv _ _ _ _ _ _ _ Hd Hm Hst) as (Hsp & -> & ->).
  pose proof (product_int_ge _ _ _ Hn Hf Hsp) as Hge.
  assert (Hk : training_rows m sp = length (rows m)).
  { unfold training_rows. rewrite clamp_nonneg by lia. lia. }
  do 4 eexists. split; [by apply (returned_run _ _ m _ sp)|].
  rewrite length_rows_over_minus, length_rows_train, length_column.
  unfold test_features, features, over, minus. cbn [rows].
  rewrite Hk, drop_all, length_take. simpl. repeat split; lia.
Qed.

(** X4.  A fraction from -1 to below 0 is accepted.  The slice bound
    [split_point] is then 0 or negative: at 0 the training partition is
    empty; a negative bound counts from the end, and the training partition
    has all but the last [-split_point] rows. *)
Theorem negative_fraction σ d m f :
  σ !! d = Some (Buf2 m) → well_shaped m → (-1 <= f < 0)%R →
  ∃ sp mu sg X l Y l',
    statistics (split_and_preprocess_body d (Finite f) σ) = Some (sp, mu, sg)
    ∧ returned (split_and_preprocess d (Finite f) σ) = Some (X, l, Y, l')
    ∧ (sp ≤ 0)%Z
    ∧ length (rows X)
      = (if decide (sp = 0%Z) then 0
         else length (rows m) - Z.to_nat (- sp) `min` length (rows m))
    ∧ length (rows X) + length (rows Y) = length (rows m).
Proof.
  intros Hd (Hm & _ & Hn) Hf.
  destruct (product_int_negative _ f Hn ltac:(lra)) as (sp & Hsp & Hle).
  exists sp. do 6 eexists. split; [by apply (statistics_run _ _ m)|].
  split; [by apply (returned_run _ _ m)|]. split; [done|].
  rewrite !length_rows_over_minus, length_rows_train, length_rows_test.
  pose proof (training_rows_le m sp). split; [|lia].
  unfold training_rows. destruct (decide (sp = 0%Z)) as [->|Hne].
  - by rewrite clamp_nonneg.
  - apply clamp_negative. lia.
Qed.

Lemma floor_three_quarters n :
  Int_part (INR n * (3 / 4)) = Z.of_nat (3 * n / 4).
Proof.
  symmetry. apply Int_part_spec.
  pose proof (Nat.div_mod (3 * n) 4 ltac:(done)) as Hdm.
  pose proof (Nat.mod_upper_bound (3 * n) 4 ltac:(done)) as Hr.
  set (q := 3 * n / 4) in *. set (r := (3 * n) mod 4) in *.
  apply (f_equal INR) in Hdm. rewrite plus_INR, !mult_INR in Hdm.
  apply lt_INR in Hr. pose proof (pos_INR r) as Hr0.
  replace (INR 3) with 3%R in Hdm by (simpl; lra).
  replace (INR 4) with 4%R in Hdm, Hr by (simpl; lra).
  rewrite <- INR_IZR_INZ. lra.
Qed.

(** Up to [2^51] rows three quarters of the row count are a double. *)
Lemma product_int_default n :
  (Z.of_nat n < 2 ^ 51)%Z →
  product_int n (Finite (3 / 4)) = inr (Z.of_nat (3 * n / 4)).
Proof.
  intros Hn. rewrite product_int_representable; [|lia|].
  - rewrite trunc_nonneg by (pose proof (pos_INR n); lra).
    by rewrite floor_three_quarters.
  - exists (Z.of_nat (3 * n)), (-2)%Z. split; [lia|]. split; [lia|].
    change (-2)%Z with (Z.opp 2). rewrite pow2_neg by lia.
    change (2 ^ 2)%Z with 4%Z.
    rewrite Nat2Z.inj_mul, mult_IZR, <- !INR_IZR_INZ.
    replace (INR 3) with 3%R by (simpl; lra). lra.
Qed.

(** X5.  Called as in the notebook, with the default fraction, on up to
    [2^51] rows (up to there three quarters of the row count are computed
    without rounding), the function gives the training partition [3*n/4]
    rows, rounded down, and the test partition the other rows. *)
Theorem default_fraction_sizes σ d m :
  σ !! d = Some (Buf2 m) → well_shaped m →
  (Z.of_nat (length (rows m)) < 2 ^ 51)%Z →
  ∃ X l Y l',
    returned (split_and_preprocess_default d σ) = Some (X, l, Y, l')
    ∧ length (rows X) = 3 * length (rows m) / 4
    ∧ length (rows Y) = length (rows m) - 3 * length (rows m) / 4.
Proof.
  intros Hd [Hm _] Hn. unfold split_and_preprocess_default, default_train_fraction.
  pose proof (product_int_default _ Hn) as Hsp.
  do 4 eexists. split; [by apply (returned_run _ _ m _ _ Hd Hsp)|].
  rewrite !length_rows_over_minus, length_rows_train, length_rows_test.
  unfold training_rows. rewrite clamp_nonneg, Nat2Z.id by lia.
  assert (3 * length (rows m) / 4 ≤ length (rows m))
    by (apply Nat.Div0.div_le_upper_bound; lia).
  lia.
Qed.

(** ** Statistics that are not usable as divisors *)

Lemma xmean_nil : xmean [] = None.
Proof. unfold xmean. simpl. by destruct (Req_dec_T 0 0). Qed.

Lemma xstd_nil : xstd [] = None.
Proof. unfold xstd. simpl. by destruct (Req_dec_T 0 0). Qed.

Lemma xdiv_by_zero a : xdiv a (Some 0%R) = None.
Proof. destruct a as [x|]; [|done]. simpl. by destruct (Req_dec_T 0 0). Qed.

Lemma xdiv_by_none a : xdiv a None = None.
Proof. by destruct a. Qed.

Lemma map_to_none {A} (g : A → xr) l :
  (∀ v, g v = None) → map g l = replicate (length l) None.
Proof.
  intros Hg. induction l as [|v l IH]; [done|].
  cbn [map length replicate]. by rewrite Hg, IH.
Qed.

Lemma train_features_empty m sp :
  training_rows m sp = 0 → train_features m sp = Mat (ncols m - 1) [].
Proof. intros H. unfold train_features, features. by rewrite H. Qed.

Lemma length_column_test m sp j :
  length (column j (rows (test_features m sp)))
  = length (rows m) - training_rows m sp.
Proof. by rewrite length_column, length_rows_test. Qed.

(** X6.  When [split_point] is 0 (a fraction of 0, or the default fraction
    on a single sample) the training partition is empty and the call still
    returns: [mean[j]] and [sigma[j]] are not finite for every feature
    [j >= 1], and so is every entry of these columns in the test matrix. *)
Theorem empty_training_partition σ d m f mu sg :
  σ !! d = Some (Buf2 m) → well_shaped m →
  statistics (split_and_preprocess_body d f σ) = Some (0%Z, mu, sg) →
  ∃ X l Y l',
    returned (split_and_preprocess d f σ) = Some (X, l, Y, l')
    ∧ rows X = [] ∧ l = []
    ∧ ∀ j, 1 ≤ j → j < ncols m - 1 →
        mu !! j = Some None ∧ sg !! j = Some None
        ∧ column j (rows Y) = replicate (length (rows m)) None.
Proof.
  intros Hd [Hm _] Hst.
  destruct (statistics_inv _ _ _ _ _ _ _ Hd Hm Hst) as (Hsp & -> & ->).
  assert (Hk : training_rows m 0 = 0) by (unfold training_rows; by rewrite clamp_nonneg).
  do 4 eexists. split; [by apply (returned_run _ _ m _ 0%Z)|].
  rewrite (train_features_empty m 0 Hk), Hk.
  split; [done|]. split; [done|]. intros j Hj Hlt.
  assert (Hmu : mean_values m 0 !! j = Some None).
  { rewrite mean_values_lookup, (train_features_empty m 0 Hk) by done.
    by rewrite <- xmean_nil. }
  assert (Hsg : sigma_values m 0 !! j = Some None).
  { unfold sigma_values. rewrite list_lookup_insert_ne by lia.
    rewrite reduce_axis0_lookup, (train_features_empty m 0 Hk) by done.
    by rewrite <- xstd_nil. }
  split; [done|]. split; [done|].
  rewrite (column_normalized _ _ _ j _ _ Hmu Hsg).
  rewrite (map_to_none _ _ (λ v, xdiv_by_none (xsub v None))).
  by rewrite length_column_test, Hk, Nat.sub_0_r.
Qed.

(** X7.  In the exact arithmetic of the entries, where a deviation is a
    real or nan: let [sigma[j]] for a feature [j >= 1] be 0 or not finite.
    Then every entry of column [j] is not finite, in the returned training
    matrix and in the returned test matrix. *)
Theorem degenerate_sigma_spoils_column σ d m f j sp mu sg s :
  σ !! d = Some (Buf2 m) → well_shaped m → 1 ≤ j →
  statistics (split_and_preprocess_body d f σ) = Some (sp, mu, sg) →
  sg !! j = Some s → s = None ∨ s = Some 0%R →
  ∃ X l Y l',
    returned (split_and_preprocess d f σ) = Some (X, l, Y, l')
    ∧ column j (rows X) = replicate (length (rows X)) None
    ∧ column j (rows Y) = replicate (length (rows Y)) None.
Proof.
  intros Hd [Hm _] Hj Hst Hsg Hs.
  destruct (statistics_inv _ _ _ _ _ _ _ Hd Hm Hst) as (Hsp & -> & ->).
  destruct (sigma_values_lookup _ _ _ _ Hj Hsg) as [Hlt _].
  do 4 eexists. split; [by apply (returned_run _ _ m _ sp)|].
  rewrite !(column_normalized _ _ _ j _ _ (mean_values_lookup m sp j Hj Hlt) Hsg).
  rewrite !length_rows_over_minus, <- !(length_column j).
  split; apply map_to_none; intros v; destruct Hs as [->| ->];
    (apply xdiv_by_none || apply xdiv_by_zero).
Qed.

Lemma Rsum_map_replicate (g : R → R) k v :
  Rsum (map g (replicate k v)) = (INR k * g v)%R.
Proof.
  induction k as [|k IH]; [simpl; lra|].
  change (g v + Rsum (map g (replicate k v)) = INR (S k) * g v)%R.
  rewrite IH, S_INR. lra.
Qed.

Lemma Rsum_replicate k v : Rsum (replicate k v) = (INR k * v)%R.
Proof.
  induction k as [|k IH]; [simpl; lra|].
  change (v + Rsum (replicate k v) = INR (S k) * v)%R.
  rewrite IH, S_INR. lra.
Qed.

Lemma Rvar_replicate k v : 1 ≤ k → Rvar (replicate k v) = 0%R.
Proof.
  intros Hk. assert (Hn : INR k ≠ 0%R) by (apply not_0_INR; lia).
  unfold Rvar, Rmean. rewrite length_replicate.
  rewrite Rsum_map_replicate, Rsum_replicate.
  by field.
Qed.

Lemma xstd_replicate k v : 1 ≤ k → xstd (replicate k (Some v)) = Some 0%R.
Proof.
  intros Hk. replace (replicate k (Some v)) with (map Some (replicate k v))
    by apply fmap_replicate.
  rewrite xstd_finite by (destruct k; [lia|done]).
  by rewrite Rvar_replicate, sqrt_0.
Qed.

Lemma Rsum_squares_zero c xs :
  Rsum (map (λ x, ((x - c) * (x - c))%R) xs) = 0%R →
  xs = replicate (length xs) c.
Proof.
  induction xs as [|x xs IH]; [done|]. intros H.
  change ((x - c) * (x - c) + Rsum (map (λ x, ((x - c) * (x - c))%R) xs) = 0)%R in H.
  pose proof (Rsum_squares_nonneg c xs) as Hrest.
  pose proof (Rle_0_sqr (x - c)) as Hsq. unfold Rsqr in Hsq.
  assert (Hx : ((x - c) * (x - c) = 0)%R) by lra.
  assert (Hr : Rsum (map (λ x, ((x - c) * (x - c))%R) xs) = 0%R) by lra.
  apply Rmult_integral in Hx.
  cbn [length replicate]. rewrite <- (IH Hr). f_equal. lra.
Qed.

Lemma xstd_zero_constant l :
  xstd l = Some 0%R ↔ ∃ v k, 1 ≤ k ∧ l = replicate k (Some v).
Proof.
  split.
  - intros H. destruct (xstd_Some _ _ H) as (xs & -> & Hn & _ & Hv & Hs).
    cbv zeta in Hv, Hs. symmetry in Hs. apply sqrt_eq_0 in Hs; [|done].
    set (c := (Rsum xs / INR (length xs))%R) in *.
    assert (HD : Rsum (map (λ x, ((x - c) * (x - c))%R) xs) = 0%R).
    { apply (Rmult_eq_reg_r (/ INR (length xs))); [|by apply Rinv_neq_0_compat].
      unfold Rdiv in Hs. lra. }
    exists c, (length xs). split.
    + destruct xs; [simpl in Hn; done|simpl; lia].
    + rewrite <- fmap_replicate. f_equal. by apply Rsum_squares_zero.
  - intros (v & k & Hk & ->). by apply xstd_replicate.
Qed.

Lemma sigma_values_feature m sp j :
  1 ≤ j → j < ncols m - 1 →
  sigma_values m sp !! j
  = Some (xstd (column j (take (training_rows m sp) (rows m)))).
Proof.
  intros Hj Hlt. unfold sigma_values. rewrite list_lookup_insert_ne by lia.
  rewrite reduce_axis0_lookup by done.
  unfold train_features. by rewrite column_features.
Qed.

Lemma mean_values_feature m sp j :
  1 ≤ j → j < ncols m - 1 →
  mean_values m sp !! j
  = Some (xmean (column j (take (training_rows m sp) (rows m)))).
Proof.
  intros Hj Hlt. rewrite mean_values_lookup by done.
  unfold train_features. by rewrite column_features.
Qed.

(** X8.  For a feature [j >= 1], [sigma[j]] is 0 exactly when the training
    partition is not empty and the feature has one and the same finite value
    in all of its rows (in exact arithmetic). *)
Theorem zero_sigma_iff_constant σ d m f j sp mu sg :
  σ !! d = Some (Buf2 m) → well_shaped m → 1 ≤ j → j < ncols m - 1 →
  statistics (split_and_preprocess_body d f σ) = Some (sp, mu, sg) →
  sg !! j = Some (Some 0%R)
  ↔ ∃ v k, 1 ≤ k
           ∧ column j (take (clamp (length (rows m)) sp) (rows m))
             = replicate k (Some v).
Proof.
  intros Hd [Hm _] Hj Hlt Hst.
  destruct (statistics_inv _ _ _ _ _ _ _ Hd Hm Hst) as (Hsp & -> & ->).
  fold (training_rows m sp). rewrite sigma_values_feature by done.
  rewrite <- xstd_zero_constant. split; [by intros [= ->]|by intros ->].
Qed.

(** ** A change of unit of one feature *)

Lemma Rsum_scale (k : R) (g : R → R) xs :
  Rsum (map (λ x, (k * g x)%R) xs) = (k * Rsum (map g xs))%R.
Proof.
  induction xs as [|x xs IH]; [simpl; lra|].
  change (k * g x + Rsum (map (λ x, (k * g x)%R) xs)
          = k * (g x + Rsum (map g xs)))%R.
  rewrite IH. lra.
Qed.

Lemma Rsum_affine (a b : R) xs :
  Rsum (map (λ x, (a * x + b)%R) xs) = (a * Rsum xs + INR (length xs) * b)%R.
Proof.
  induction xs as [|x xs IH]; [simpl; lra|].
  change (a * x + b + Rsum (map (λ x, (a * x + b)%R) xs)
          = a * (x + Rsum xs) + INR (S (length xs)) * b)%R.
  rewrite IH, S_INR. lra.
Qed.

Lemma Rmean_affine (a b : R) xs :
  xs ≠ [] → Rmean (map (λ x, (a * x + b)%R) xs) = (a * Rmean xs + b)%R.
Proof.
  intros H. pose proof (INR_length_ne_0 xs H) as Hn.
  unfold Rmean. rewrite Rsum_affine, length_map. by field.
Qed.

Lemma Rvar_affine (a b : R) xs :
  xs ≠ [] → Rvar (map (λ x, (a * x + b)%R) xs) = (a * a * Rvar xs)%R.
Proof.
  intros H. pose proof (INR_length_ne_0 xs H) as Hn.
  unfold Rvar. rewrite Rmean_affine, map_map, length_map by done.
  rewrite (map_ext _ (λ x, (a * a * ((x - Rmean xs) * (x - Rmean xs)))%R))
    by (intros x; ring).
  rewrite (Rsum_scale (a * a) (λ x, ((x - Rmean xs) * (x - Rmean xs))%R)).
  by field.
Qed.

Lemma sqrt_scale a v : (0 < a)%R → (0 <= v)%R → sqrt (a * a * v) = (a * sqrt v)%R.
Proof.
  intros Ha Hv. rewrite sqrt_mult by nra. rewrite sqrt_square by lra. done.
Qed.

Lemma map_affine_finite (a b : R) xs :
  map (λ v, xadd (xmul (Some a) v) (Some b)) (map Some xs)
  = map Some (map (λ x, (a * x + b)%R) xs).
Proof. by rewrite !map_map. Qed.

Lemma map_affine_Some (a b : R) l ys :
  map (λ v, xadd (xmul (Some a) v) (Some b)) l = map Some ys →
  ∃ xs, l = map Some xs.
Proof.
  revert ys. induction l as [|v l IH]; intros [|y ys] H; try done.
  - by exists [].
  - cbn [map] in H. injection H as Hv Hl. destruct (IH _ Hl) as [xs ->].
    destruct v as [x|]; [|done]. by exists (x :: xs).
Qed.

(** Normalizing with the statistics of the rescaled column undoes the
    rescaling. *)
Lemma normalize_affine (a b : R) l v :
  (0 < a)%R →
  xdiv (xsub (xadd (xmul (Some a) v) (Some b))
          (xmean (map (λ v, xadd (xmul (Some a) v) (Some b)) l)))
       (xstd (map (λ v, xadd (xmul (Some a) v) (Some b)) l))
  = xdiv (xsub v (xmean l)) (xstd l).
Proof.
  intros Ha. destruct (xstd l) as [s|] eqn:Hs.
  - destruct (xstd_Some _ _ Hs) as (xs & -> & Hn & _).
    assert (Hne : xs ≠ []) by (intros ->; by apply Hn).
    assert (Hne' : map (λ x, (a * x + b)%R) xs ≠ []) by by destruct xs.
    rewrite xstd_finite in Hs by done. injection Hs as <-.
    rewrite map_affine_finite, !xmean_finite, xstd_finite by done.
    rewrite Rmean_affine, Rvar_affine, sqrt_scale by (done || apply Rvar_nonneg).
    destruct v as [x|]; [|done]. cbn [xmul xadd xsub].
    destruct (Req_dec_T (sqrt (Rvar xs)) 0) as [H0|H0].
    + rewrite H0, Rmult_0_r. by rewrite !xdiv_by_zero.
    + rewrite !xdiv_finite by (done || nra). f_equal. field. split; [done|lra].
  - rewrite (xdiv_by_none (xsub v (xmean l))).
    destruct (xstd (map (λ v, xadd (xmul (Some a) v) (Some b)) l)) as [s'|] eqn:Hs';
      [|apply xdiv_by_none].
    destruct (xstd_Some _ _ Hs') as (ys & Hl & Hn & _).
    destruct (map_affine_Some _ _ _ _ Hl) as [xs ->].
    assert (Hne : xs ≠ []).
    { intros ->. destruct ys; [by apply Hn|done]. }
    rewrite xstd_finite in Hs by done. done.
Qed.

Lemma column_take j k rs : column j (take k rs) = take k (column j rs).
Proof. unfold column. apply fmap_take. Qed.

Lemma column_drop j k rs : column j (drop k rs) = drop k (column j rs).
Proof. unfold column. apply fmap_drop. Qed.

(** X9.  Measure a feature [j >= 1] in another unit, [a*x + b] with [a > 0]
    in every row: when the function returns on the one matrix it returns on
    the other, and column [j] of both returned feature matrices stays what
    it was (in exact arithmetic). *)
Theorem normalization_affine_invariant σ1 d1 m1 σ2 d2 m2 f j (a b : R)
  sp mu sg :
  σ1 !! d1 = Some (Buf2 m1) → σ2 !! d2 = Some (Buf2 m2) →
  well_shaped m1 → well_shaped m2 → ncols m1 = ncols m2 →
  1 ≤ j → j < ncols m1 - 1 → (0 < a)%R →
  column j (rows m2)
  = map (λ v, xadd (xmul (Some a) v) (Some b)) (column j (rows m1)) →
  statistics (split_and_preprocess_body d1 f σ1) = Some (sp, mu, sg) →
  ∃ X1 l1 Y1 l1' X2 l2 Y2 l2',
    returned (split_and_preprocess d1 f σ1) = Some (X1, l1, Y1, l1')
    ∧ returned (split_and_preprocess d2 f σ2) = Some (X2, l2, Y2, l2')
    ∧ column j (rows X2) = column j (rows X1)
    ∧ column j (rows Y2) = column j (rows Y1).
Proof.
  intros Hd1 Hd2 [Hm1 _] [Hm2 _] Hc Hj Hlt Ha Hcol Hst.
  destruct (statistics_inv _ _ _ _ _ _ _ Hd1 Hm1 Hst) as (Hsp & _ & _).
  assert (Hn : length (rows m2) = length (rows m1)).
  { apply (f_equal length) in Hcol. by rewrite length_map, !length_column in Hcol. }
  assert (Hk : training_rows m2 sp = training_rows m1 sp).
  { unfold training_rows. by rewrite Hn. }
  assert (Hsp2 : product_int (length (rows m2)) f = inr sp) by by rewrite Hn.
  assert (Hlt2 : j < ncols m2 - 1) by lia.
  do 8 eexists. split; [by apply (returned_run _ _ m1 _ sp)|].
  split; [by apply (returned_run _ _ m2 _ sp)|].
  rewrite !(column_normalized _ _ _ j _ _
              (mean_values_feature m1 sp j Hj Hlt) (sigma_values_feature m1 sp j Hj Hlt)).
  rewrite !(column_normalized _ _ _ j _ _
              (mean_values_feature m2 sp j Hj Hlt2) (sigma_values_feature m2 sp j Hj Hlt2)).
  unfold train_features, test_features. rewrite !column_features by done.
  rewrite Hk, !column_take, !column_drop, Hcol.
  rewrite <- !fmap_take, <- !fmap_drop, !map_map.
  split; apply map_ext; intros v; by apply normalize_affine.
Qed.

(** ** Labels and features *)

Lemma features_removelast m rs :
  Forall (λ row, length row = ncols m) rs → 1 ≤ ncols m →
  features m rs = Mat (ncols m - 1) (map (λ row, removelast row) rs).
Proof.
  intros Hwf Hm. unfold features. f_equal.
  apply Forall_fmap_ext_1. eapply Forall_impl; [exact Hwf|].
  intros row Hrow. cbn beta in *. apply take_removelast. lia.
Qed.

Lemma map_take {A B} (g : A → B) k l : map g (take k l) = take k (map g l).
Proof. apply fmap_take. Qed.

Lemma map_drop {A B} (g : A → B) k l : map g (drop k l) = drop k (map g l).
Proof. apply fmap_drop. Qed.

(** X10.  The labels have no part in the features: when the function
    returns on a matrix, it returns on every matrix with the same feature
    columns, with the same [split_point], the same [mean], the same [sigma]
    and the same two feature matrices, whatever the label columns are. *)
Theorem features_ignore_labels σ1 d1 m1 σ2 d2 m2 f sp mu sg :
  σ1 !! d1 = Some (Buf2 m1) → σ2 !! d2 = Some (Buf2 m2) →
  well_shaped m1 → well_shaped m2 → ncols m1 = ncols m2 →
  map (λ row, removelast row) (rows m1) = map (λ row, removelast row) (rows m2) →
  statistics (split_and_preprocess_body d1 f σ1) = Some (sp, mu, sg) →
  statistics (split_and_preprocess_body d2 f σ2) = Some (sp, mu, sg)
  ∧ ∃ X Y l1 l1' l2 l2',
      returned (split_and_preprocess d1 f σ1) = Some (X, l1, Y, l1')
      ∧ returned (split_and_preprocess d2 f σ2) = Some (X, l2, Y, l2').
Proof.
  intros Hd1 Hd2 (Hm1 & Hwf1 & _) (Hm2 & Hwf2 & _) Hc Hrows Hst.
  destruct (statistics_inv _ _ _ _ _ _ _ Hd1 Hm1 Hst) as (Hsp & -> & ->).
  assert (Hn : length (rows m2) = length (rows m1)).
  { apply (f_equal length) in Hrows. by rewrite !length_map in Hrows. }
  assert (Hk : training_rows m2 sp = training_rows m1 sp).
  { unfold training_rows. by rewrite Hn. }
  assert (Hsp2 : product_int (length (rows m2)) f = inr sp) by by rewrite Hn.
  assert (HT : train_features m2 sp = train_features m1 sp).
  { unfold train_features.
    rewrite !features_removelast by (by apply Forall_take || lia).
    by rewrite Hk, !map_take, Hrows, Hc. }
  assert (HU : test_features m2 sp = test_features m1 sp).
  { unfold test_features.
    rewrite !features_removelast by (by apply Forall_drop || lia).
    by rewrite Hk, !map_drop, Hrows, Hc. }
  assert (Hmu : mean_values m2 sp = mean_values m1 sp).
  { unfold mean_values. by rewrite HT. }
  assert (Hsg : sigma_values m2 sp = sigma_values m1 sp).
  { unfold sigma_values. by rewrite HT. }
  split; [rewrite (statistics_run _ _ m2 _ sp) by done; by rewrite Hmu, Hsg|].
  do 6 eexists. split; [by apply (returned_run _ _ m1 _ sp)|].
  rewrite (returned_run _ _ m2 _ sp) by done. by rewrite Hmu, Hsg, HT, HU.
Qed.

Lemma setitem_col σ d m r0 r1 c i x :
  σ !! d = Some (Buf2 m) →
  i < length (window r0 r1 (rows m)) →
  setitem (Col d r0 r1 c) (Z.of_nat i) x σ
  = (<[d := Buf2 (Mat (ncols m)
                    (alter (λ row, <[c := x]> row) (r0 + i) (rows m)))]> σ,
     inr tt).
Proof.
  intros Hd Hi. unfold setitem, bind, load1, read1. rewrite Hd.
  unfold index. rewrite length_column, bool_decide_eq_true_2 by lia.
  replace (Z.to_nat (if (Z.of_nat i <? 0)%Z
                     then (Z.of_nat (length (window r0 r1 (rows m))) + Z.of_nat i)%Z
                     else Z.of_nat i)) with i
    by (destruct (Z.ltb_spec (Z.of_nat i) 0); lia).
  by rewrite Hd.
Qed.

(** X11.  The returned label vectors are views into [data], the returned
    feature matrices are arrays of their own: after the call, the assignment
    [train_labels[i] = x] changes the label of row [i] in [data] and leaves
    both feature matrices as they are. *)
Theorem labels_are_views σ d m f sp mu sg (i : nat) (x : xr) :
  σ !! d = Some (Buf2 m) → well_shaped m →
  statistics (split_and_preprocess_body d f σ) = Some (sp, mu, sg) →
  i < clamp (length (rows m)) sp →
  ∃ σ' train_data train_labels test_data test_labels σ'',
    split_and_preprocess d f σ
    = (σ', inr (train_data, train_labels, test_data, test_labels))
    ∧ setitem train_labels (Z.of_nat i) x σ' = (σ'', inr tt)
    ∧ read2 (Own2 d) σ''
      = Some (Mat (ncols m)
                (alter (λ row, <[ncols m - 1 := x]> row) i (rows m)))
    ∧ read2 train_data σ'' = read2 train_data σ'
    ∧ read2 test_data σ'' = read2 test_data σ'.
Proof.
  intros Hd [Hm _] Hst Hi.
  destruct (statistics_inv _ _ _ _ _ _ _ Hd Hm Hst) as (Hsp & -> & ->).
  fold (training_rows m sp) in Hi.
  pose proof (lookup_lt_Some _ _ _ Hd) as Hlt.
  do 6 eexists. split; [by apply (split_and_preprocess_run _ _ m _ sp)|].
  split.
  - apply setitem_col; [by apply lookup_app_l_Some|].
    rewrite window_0, length_take. pose proof (training_rows_le m sp). lia.
  - cbn [Nat.add]. unfold read2.
    rewrite list_lookup_insert_eq by (rewrite length_app; lia).
    by rewrite !list_lookup_insert_ne by lia.
Qed.

(** * Further properties of TrainingHistory *)

Section HistoryMore.
Import TrainingHistory.
Context {V : Type} (append_method : V → V → exn + V).
Local Abbreviation append := (TrainingHistory.append append_method).
Local Abbreviation on_epoch_end := (TrainingHistory.on_epoch_end append_method).
Local Abbreviation epochs := (TrainingHistory.epochs append_method).
Local Abbreviation training := (TrainingHistory.training append_method).
Implicit Types (self : gmap string (pyval V)) (logs : gmap string V).

(** The outcome of one call on an object whose attributes [loss] and
    [validation_loss] are lists where it has them, by the two lists and the
    two keys. *)
Lemma on_epoch_end_cases self epoch logs :
  (∀ v, self !! "loss" ≠ Some (Val v)) →
  (∀ v, self !! "validation_loss" ≠ Some (Val v)) →
  on_epoch_end epoch logs self
  = match logs !! "loss", self !! "loss" with
    | Some x, Some (List a) =>
        match logs !! "val_loss", self !! "validation_loss" with
        | Some y, Some (List b) =>
            (<["validation_loss" := List (b ++ [y])]>
               (<["loss" := List (a ++ [x])]> self), inr tt)
        | Some y, _ => (<["loss" := List (a ++ [x])]> self, inl AttributeError)
        | None, _ => (<["loss" := List (a ++ [x])]> self, inr tt)
        end
    | Some x, _ => (self, inl AttributeError)
    | None, _ =>
        match logs !! "val_loss", self !! "validation_loss" with
        | Some y, Some (List b) =>
            (<["validation_loss" := List (b ++ [y])]> self, inr tt)
        | Some y, _ => (self, inl AttributeError)
        | None, _ => (self, inr tt)
        end
    end.
Proof.
  intros Hl Hv. unfold TrainingHistory.on_epoch_end, bind, TrainingHistory.append, ret.
  destruct (logs !! "loss") as [x|], (self !! "loss") as [[v|a]|] eqn:Ea;
    try (by destruct (Hl v));
    destruct (logs !! "val_loss") as [y|]; try done;
    rewrite ?lookup_insert_ne by done;
    destruct (self !! "validation_loss") as [[w|b]|] eqn:Eb; try done;
    by destruct (Hv w).
Qed.
End HistoryMore.

(** X12.  On an object whose attributes [loss] and [validation_loss] are
    lists where it has them (as they are from [on_train_begin] on),
    [on_epoch_end] returns exactly when every key of ['loss'] and
    ['val_loss'] that [logs] has finds its list in the object; otherwise it
    raises, and what it raises is an [AttributeError]. *)
Theorem on_epoch_end_returns_iff {V : Type} (append_method : V → V → exn + V)
  (self : gmap string (TrainingHistory.pyval V)) (epoch : Z)
  (logs : gmap string V) :
  (∀ v, self !! "loss" ≠ Some (TrainingHistory.Val v)) →
  (∀ v, self !! "validation_loss" ≠ Some (TrainingHistory.Val v)) →
  ((TrainingHistory.on_epoch_end append_method epoch logs self).2 = inr tt
   ↔ (is_Some (logs !! "loss")
      → ∃ l, self !! "loss" = Some (TrainingHistory.List l))
     ∧ (is_Some (logs !! "val_loss")
        → ∃ l, self !! "validation_loss" = Some (TrainingHistory.List l)))
  ∧ ∀ e, (TrainingHistory.on_epoch_end append_method epoch logs self).2 = inl e
         → e = AttributeError.
Proof.
  intros Hl Hv. rewrite on_epoch_end_cases by done.
  destruct (logs !! "loss") as [x|],
           (self !! "loss") as [[v|a]|],
           (logs !! "val_loss") as [y|],
           (self !! "validation_loss") as [[w|b]|]; cbn [snd];
    (split; [split; [intros H; try done; split; intros [? ?]; try done; eauto
                    |intros [H1 H2]; try done;
                     try (destruct (H1 (mk_is_Some _ _ eq_refl)) as [? ?]; done);
                     try (destruct (H2 (mk_is_Some _ _ eq_refl)) as [? ?]; done)]
            |intros e H; congruence]).
Qed.

Section HistoryOrder.
Import TrainingHistory.
Context {V : Type} (append_method : V → V → exn + V).
Local Abbreviation append := (TrainingHistory.append append_method).
Local Abbreviation on_epoch_end := (TrainingHistory.on_epoch_end append_method).
Local Abbreviation epochs := (TrainingHistory.epochs append_method).
Local Abbreviation training := (TrainingHistory.training append_method).
Implicit Types (self : gmap string (pyval V)) (logs : gmap string V).

Lemma insert_append_prefix self key b (y : V) name l :
  self !! key = Some (List b) → self !! name = Some (List l) →
  ∃ l', <[key := List (b ++ [y])]> self !! name = Some (List l')
        ∧ l `prefix_of` l'.
Proof.
  intros Hk Hn. destruct (decide (key = name)) as [->|Hne].
  - rewrite lookup_insert_eq. rewrite Hk in Hn. injection Hn as ->.
    eexists. split; [done|]. by apply prefix_app_r.
  - rewrite lookup_insert_ne by done. by exists l.
Qed.

Lemma append_prefix self key (x : V) name l :
  self !! name = Some (List l) →
  ∃ l', (append key x self).1 !! name = Some (List l') ∧ l `prefix_of` l'.
Proof.
  intros Hn. unfold TrainingHistory.append.
  destruct (self !! key) as [[v|b]|] eqn:Ek; cbn [fst].
  - destruct (append_method v x) as [e|v']; cbn [fst]; [by exists l|].
    rewrite lookup_insert_ne by (intros ->; congruence). by exists l.
  - by apply insert_append_prefix.
  - by exists l.
Qed.

Lemma on_epoch_end_prefix self epoch logs name l :
  self !! name = Some (List l) →
  ∃ l', (on_epoch_end epoch logs self).1 !! name = Some (List l')
        ∧ l `prefix_of` l'.
Proof.
  intros Hn. unfold TrainingHistory.on_epoch_end, bind.
  assert (H1 : ∃ l1, (match logs !! "loss" with
                      | Some x => append "loss" x
                      | None => ret ()
                      end self).1 !! name = Some (List l1) ∧ l `prefix_of` l1).
  { destruct (logs !! "loss") as [x|]; [by apply append_prefix|by exists l]. }
  destruct H1 as (l1 & H1 & P1).
  destruct (match logs !! "loss" with
            | Some x => append "loss" x
            | None => ret ()
            end self) as [s1 [e|[]]]; cbn [fst] in *; [by exists l1|].
  destruct (logs !! "val_loss") as [y|]; [|by exists l1].
  destruct (append_prefix s1 "validation_loss" y name l1 H1) as (l2 & H2 & P2).
  exists l2. split; [done|]. by etrans.
Qed.

Lemma epochs_prefix calls : ∀ self name l,
  self !! name = Some (List l) →
  ∃ l', (epochs calls self).1 !! name = Some (List l') ∧ l `prefix_of` l'.
Proof.
  induction calls as [|[epoch logs] calls IH]; intros self name l Hn.
  - by exists l.
  - destruct (on_epoch_end_prefix self epoch logs name l Hn) as (l1 & H1 & P1).
    cbn [epochs]. unfold bind.
    destruct (on_epoch_end epoch logs self) as [s1 [e|[]]]; cbn [fst] in *.
    + by exists l1.
    + destruct (IH s1 name l1 H1) as (l2 & H2 & P2).
      exists l2. split; [done|]. by etrans.
Qed.
End HistoryOrder.

(** X13.  [on_epoch_end] is not all or nothing: when the object has the list
    [loss] but no attribute [validation_loss] and [logs] has both keys, the
    call raises an [AttributeError] after it has appended to [loss]. *)
Theorem on_epoch_end_not_atomic {V : Type} (append_method : V → V → exn + V)
  (self : gmap string (TrainingHistory.pyval V)) (epoch : Z)
  (logs : gmap string V) (a : list V) (x y : V) :
  self !! "loss" = Some (TrainingHistory.List a) →
  self !! "validation_loss" = None →
  logs !! "loss" = Some x → logs !! "val_loss" = Some y →
  TrainingHistory.on_epoch_end append_method epoch logs self
  = (<["loss" := TrainingHistory.List (a ++ [x])]> self, inl AttributeError).
Proof.
  intros Ha Hb Hx Hy.
  rewrite on_epoch_end_cases by (intros v; congruence).
  by rewrite Hx, Ha, Hy, Hb.
Qed.

(** X14.  What is recorded stays: through any sequence of [on_epoch_end]
    calls, also one that ends in an exception, an attribute that holds a
    list keeps holding a list, and the list it held is a prefix of the one
    it holds afterwards. *)
Theorem history_is_append_only {V : Type} (append_method : V → V → exn + V)
  (self : gmap string (TrainingHistory.pyval V))
  (calls : list (Z * gmap string V)) (name : string) (l : list V) :
  self !! name = Some (TrainingHistory.List l) →
  ∃ l', (TrainingHistory.epochs append_method calls self).1 !! name
        = Some (TrainingHistory.List l')
        ∧ l `prefix_of` l'.
Proof. apply epochs_prefix. Qed.

Section HistoryExact.
Import TrainingHistory.
Context {V : Type} (append_method : V → V → exn + V).
Local Abbreviation append := (TrainingHistory.append append_method).
Local Abbreviation on_epoch_end := (TrainingHistory.on_epoch_end append_method).
Local Abbreviation epochs := (TrainingHistory.epochs append_method).
Local Abbreviation training := (TrainingHistory.training append_method).
Implicit Types (self : gmap string (pyval V)) (logs : gmap string V).

Lemma insert_two_lists self (a a' b b' : list V) :
  <["validation_loss" := List b']> (<["loss" := List a']>
    (<["validation_loss" := List b]> (<["loss" := List a]> self)))
  = <["validation_loss" := List b']> (<["loss" := List a']> self).
Proof.
  apply map_eq. intros k. rewrite !lookup_insert.
  by repeat case_decide.
Qed.

Lemma insert_two_lists_id self (a b : list V) :
  self !! "loss" = Some (List a) → self !! "validation_loss" = Some (List b) →
  <["validation_loss" := List b]> (<["loss" := List a]> self) = self.
Proof.
  intros Ha Hb. rewrite (insert_id self "loss") by done. by rewrite insert_id.
Qed.

(** The state a sequence of calls ends in, when it starts with both lists. *)
Lemma epochs_exact calls : ∀ self a b,
  self !! "loss" = Some (List a) →
  self !! "validation_loss" = Some (List b) →
  epochs calls self
  = (<["validation_loss" := List (b ++ omap (λ c, c.2 !! "val_loss") calls)]>
       (<["loss" := List (a ++ omap (λ c, c.2 !! "loss") calls)]> self),
     inr tt).
Proof.
  induction calls as [|[epoch logs] calls IH]; intros self a b Ha Hb.
  - cbn [omap list_omap]. rewrite !app_nil_r. by rewrite insert_two_lists_id.
  - destruct (on_epoch_end_run append_method self epoch logs a b Ha Hb)
      as (s1 & Hrun & Ha1 & Hb1).
    cbn [TrainingHistory.epochs]. rewrite (bind_run _ _ _ _ _ Hrun).
    rewrite (IH s1 _ _ Ha1 Hb1). f_equal.
    assert (Hs1 : s1 = <["validation_loss" := List (b ++ option_list (logs !! "val_loss"))]>
                         (<["loss" := List (a ++ option_list (logs !! "loss"))]> self)).
    { revert Hrun. rewrite on_epoch_end_cases by (intros v; congruence).
      rewrite Ha, Hb.
      destruct (logs !! "loss") as [x|], (logs !! "val_loss") as [y|];
        cbn [option_list]; rewrite ?app_nil_r; intros [= <-]; try done;
        apply map_eq; intros k; rewrite ?lookup_insert;
        repeat case_decide; subst; by rewrite ?Ha, ?Hb. }
    rewrite Hs1, insert_two_lists, <- !app_assoc. cbn [omap list_omap snd].
    by destruct (logs !! "loss"), (logs !! "val_loss").
Qed.

Lemma training_exact self logs0 calls :
  training logs0 calls self
  = (<["validation_loss" := List (omap (λ c, c.2 !! "val_loss") calls)]>
       (<["loss" := List (omap (λ c, c.2 !! "loss") calls)]> self), inr tt).
Proof.
  unfold TrainingHistory.training.
  rewrite (bind_run (on_train_begin logs0) _ self
             (<["validation_loss" := List []]> (<["loss" := List []]> self)) tt eq_refl).
  rewrite (epochs_exact calls _ [] []);
    [|by rewrite lookup_insert_ne, lookup_insert_eq|by rewrite lookup_insert_eq].
  by rewrite insert_two_lists.
Qed.

Lemma omap_imap_logs (key : string) (epoch_logs : list (gmap string V)) :
  omap (λ c : Z * gmap string V, c.2 !! key)
       (imap (λ i logs, (Z.of_nat i, logs)) epoch_logs)
  = omap (λ logs, logs !! key) epoch_logs.
Proof.
  assert (G : ∀ (g : nat → Z) (l : list (gmap string V)),
    omap (λ c : Z * gmap string V, c.2 !! key)
         (imap (λ i logs, (g i, logs)) l)
    = omap (λ logs : gmap string V, logs !! key) l).
  { intros g l. revert g. induction l as [|logs l IH]; intros g; [done|].
    cbn [imap omap list_omap snd]. specialize (IH (g ∘ S)).
    unfold compose in *. by rewrite <- IH. }
  apply G.
Qed.
End HistoryExact.

Section PlottingRuns.
Import TrainingHistory.
Context {V : Type} (sequence : V → option (list V)).

Lemma plot_history_lists (history : gmap string (pyval V)) ls vs fig :
  history !! "loss" = Some (List ls) →
  history !! "validation_loss" = Some (List vs) →
  plot_history sequence history fig
  = let head := fig ++ [LSubplots 1 1 (16, 5); LSetXLabel "epoch";
                        LSetYLabel "loss";
                        LPlot (seq 0 (length ls)) ls "C0" "loss"] in
    if decide (length ls = length vs)
    then (head ++ [LPlot (seq 0 (length ls)) vs "C4" "validation loss";
                   LSetYLim 0%R; LLegend 1; LShow], inr tt)
    else (head, inl ValueError).
Proof.
  intros Hl Hv. unfold plot_history, getattr, len, plot, bind, emit, ret, raise.
  rewrite Hl, Hv. cbn beta iota zeta. rewrite !length_seq.
  rewrite decide_True by done. cbn beta iota zeta.
  destruct (decide (length ls = length vs)); cbn beta iota zeta;
    by rewrite <- ?app_assoc.
Qed.
End PlottingRuns.

(** X15.  A second training with the same callback object starts over:
    [on_train_begin] replaces both lists, so what the first training
    recorded is gone, and the object ends as if the second training had been
    its only one. *)
Theorem training_resets_history {V : Type} (append_method : V → V → exn + V)
  (self : gmap string (TrainingHistory.pyval V)) (logs0 logs1 : gmap string V)
  (calls calls1 : list (Z * gmap string V)) :
  (do _ <- TrainingHistory.training append_method logs0 calls;
   TrainingHistory.training append_method logs1 calls1) self
  = TrainingHistory.training append_method logs1 calls1 self.
Proof.
  rewrite (bind_run _ _ _ _ _ (training_exact append_method self logs0 calls)).
  rewrite !training_exact. by rewrite insert_two_lists.
Qed.

(** X16.  [plot_history] on what [train_model] returns: the x values are
    [0 .. len(history.loss) - 1] for both curves, so the call draws the two
    curves and returns when as many epochs reported ['val_loss'] as reported
    ['loss'], and otherwise raises a [ValueError] at the second [plot], after
    the loss curve has been drawn. *)
Theorem plot_history_after_train_model {V : Type}
  (sequence : V → option (list V)) (append_method : V → V → exn + V)
  (new : gmap string (TrainingHistory.pyval V)) (logs0 : gmap string V)
  (epoch_logs : list (gmap string V)) (fig : list (line_call V)) :
  let history := (train_model append_method logs0 epoch_logs new).1 in
  let ls := omap (λ logs : gmap string V, logs !! "loss") epoch_logs in
  let vs := omap (λ logs : gmap string V, logs !! "val_loss") epoch_logs in
  let head := fig ++ [LSubplots 1 1 (16, 5); LSetXLabel "epoch";
                      LSetYLabel "loss";
                      LPlot (seq 0 (length ls)) ls "C0" "loss"] in
  (train_model append_method logs0 epoch_logs new).2 = inr tt
  ∧ plot_history sequence history fig
    = if decide (length ls = length vs)
      then (head ++ [LPlot (seq 0 (length ls)) vs "C4" "validation loss";
                     LSetYLim 0%R; LLegend 1; LShow], inr tt)
      else (head, inl ValueError).
Proof.
  intros history ls vs head. unfold history, train_model.
  rewrite training_exact, !omap_imap_logs. cbn [fst snd]. split; [done|].
  by rewrite (plot_history_lists sequence _ ls vs);
    [|by rewrite lookup_insert_ne, lookup_insert_eq|by rewrite lookup_insert_eq].
Qed.

(** X17.  [plot_history] on an object without the attribute [loss], as a
    [TrainingHistory] is before [on_train_begin]: the figure is made and the
    axis labelled, then reading [history.loss] raises an [AttributeError];
    nothing is plotted or shown. *)
Theorem plot_history_without_loss {V : Type}
  (sequence : V → option (list V))
  (history : gmap string (TrainingHistory.pyval V)) (fig : list (line_call V)) :
  history !! "loss" = None →
  plot_history sequence history fig
  = (fig ++ [LSubplots 1 1 (16, 5); LSetXLabel "epoch"; LSetYLabel "loss"],
     inl AttributeError).
Proof.
  intros Hl. unfold plot_history, getattr, bind, emit, raise. rewrite Hl.
  cbn beta iota zeta. by rewrite <- !app_assoc.
Qed.

(** * Properties of plot_bins *)

Lemma finite_column (m : matrix) (i : nat) :
  finite m → Forall is_Some (column i (rows m)) ∨ ¬ Forall (λ row : list xr, i < length row) (rows m).
Proof.
  intros Hf. destruct (decide (Forall (λ row : list xr, i < length row) (rows m))) as [Hl|Hl];
    [left|by right].
  unfold column, finite in *. apply Forall_fmap.
  induction (rows m) as [|row rs IH]; [done|].
  inversion Hf as [|? ? Hrow Hrs]; inversion Hl as [|? ? Lrow Lrs]; subst.
  constructor; [|by apply IH]. cbn.
  destruct (lookup_lt_is_Some_2 row i Lrow) as [x Hx]. rewrite Hx. cbn.
  by eapply Forall_lookup_1 in Hrow.
Qed.

Lemma finite_column_lt (m : matrix) (i : nat) :
  Forall (λ row, length row = ncols m) (rows m) → finite m → i < ncols m →
  Forall is_Some (column i (rows m)).
Proof.
  intros Hs Hf Hi. destruct (finite_column m i Hf) as [H|H]; [done|].
  destruct H. eapply Forall_impl; [exact Hs|]. cbn. intros row ->. done.
Qed.

Lemma plot_bins_loop (refuses : list xr → bool) (data : matrix) (axis : nat) :
  Forall (λ row, length row = ncols data) (rows data) → finite data →
  axis ≤ ncols data →
  ∀ (columns : list string) (start : nat) (fig : list bins_call),
  start ≤ axis →
  for_each (λ '(i, variable),
     do ax <- getitem_axis axis i;
     do values <- getitem_all_index data i;
     do _ <- hist refuses ax values 30;
     do _ <- emit (BSetXLabel ax variable);
     emit (BSetYLabel ax "count")) (enumerate start columns) fig
  = (fig ++ histograms data (take (axis - start) (enumerate start columns)),
     if decide (start + length columns ≤ axis) then inr tt else inl IndexError).
Proof.
  intros Hs Hf Ha columns. induction columns as [|variable columns IH];
    intros start fig Hstart.
  - cbn. rewrite take_nil. cbn. rewrite app_nil_r.
    by rewrite decide_True by lia.
  - cbn [enumerate for_each length]. unfold bind at 1.
    destruct (decide (start < axis)) as [Hlt|Hge].
    + unfold getitem_axis, getitem_all_index, hist, bind, emit, ret.
      rewrite decide_True by done. rewrite decide_True by lia.
      rewrite decide_True by (apply finite_column_lt; [done|done|lia]).
      cbn beta iota. rewrite IH by lia.
      replace (axis - start) with (S (axis - S start)) by lia.
      cbn [take histograms flat_map]. rewrite <- !app_assoc. cbn [app].
      f_equal. destruct (decide (S start + length columns ≤ axis)),
        (decide (start + S (length columns) ≤ axis)); (done || lia).
    + unfold getitem_axis, bind, raise. rewrite decide_False by done.
      replace (axis - start) with 0 by lia. cbn. rewrite app_nil_r.
      by rewrite decide_False by lia.
Qed.

Lemma plot_bins_run (refuses : list xr → bool) (data : matrix)
  (columns : list string) (fig : list bins_call) :
  3 ≤ ncols data →
  Forall (λ row, length row = ncols data) (rows data) → finite data →
  let axes := 3 * (ncols data / 3) in
  let drawn := histograms data (take axes (enumerate 0 columns)) in
  plot_bins refuses data columns fig
  = if decide (length columns ≤ axes)
    then (fig ++ BSubplots 3 (ncols data / 3) (16, 8) :: drawn
              ++ [BTightLayout; BShow], inr tt)
    else (fig ++ BSubplots 3 (ncols data / 3) (16, 8) :: drawn, inl IndexError).
Proof.
  intros H3 Hs Hf axes drawn. unfold plot_bins, subplots.
  assert (Hq : 0 < ncols data / 3). { apply Nat.div_str_pos. lia. }
  assert (Hle : axes ≤ ncols data). { unfold axes. apply Nat.Div0.mul_div_le. }
  rewrite decide_True by lia.
  unfold bind at 1. unfold bind at 1. unfold emit at 1. unfold ret at 1.
  cbn beta iota. unfold bind at 1.
  rewrite (plot_bins_loop refuses data axes Hs Hf Hle columns 0) by lia.
  rewrite Nat.sub_0_r, Nat.add_0_l. fold drawn.
  destruct (decide (length columns ≤ axes)); cbn beta iota.
  - unfold bind, emit. by rewrite <- !app_assoc.
  - by rewrite <- !app_assoc.
Qed.

(** X18.  [plot_bins] makes a grid of [3 * (features // 3)] axes and walks
    through [columns]: on a finite matrix with at least three columns it
    draws the histograms of the first [3 * (features // 3)] named columns,
    in order, each with its name and ['count'] as labels; it returns when
    there are no more names than axes, and otherwise raises an [IndexError]
    at the first name without an axis, before the figure is shown. *)
Theorem plot_bins_outcome (refuses : list xr → bool) (data : matrix)
  (columns : list string) (fig : list bins_call) :
  3 ≤ ncols data →
  Forall (λ row, length row = ncols data) (rows data) → finite data →
  let axes := 3 * (ncols data / 3) in
  let drawn := histograms data (take axes (enumerate 0 columns)) in
  plot_bins refuses data columns fig
  = if decide (length columns ≤ axes)
    then (fig ++ BSubplots 3 (ncols data / 3) (16, 8) :: drawn
              ++ [BTightLayout; BShow], inr tt)
    else (fig ++ BSubplots 3 (ncols data / 3) (16, 8) :: drawn, inl IndexError).
Proof. apply plot_bins_run. Qed.

(** X19.  With one name per column, as [load_data] returns them,
    [plot_bins] returns exactly when the number of columns is a multiple of
    three; otherwise the last one or two columns have no axis and the call
    ends in an [IndexError]. *)
Theorem plot_bins_needs_multiple_of_three (refuses : list xr → bool)
  (data : matrix) (columns : list string) (fig : list bins_call) :
  3 ≤ ncols data →
  Forall (λ row, length row = ncols data) (rows data) → finite data →
  length columns = ncols data →
  ((plot_bins refuses data columns fig).2 = inr tt ↔ ncols data mod 3 = 0)
  ∧ ((plot_bins refuses data columns fig).2 ≠ inr tt
     → (plot_bins refuses data columns fig).2 = inl IndexError).
Proof.
  intros H3 Hs Hf Hc. rewrite (plot_bins_run refuses data columns fig H3 Hs Hf).
  cbn zeta. pose proof (Nat.div_mod_eq (ncols data) 3) as Hdm.
  pose proof (Nat.mod_upper_bound (ncols data) 3 ltac:(lia)) as Hm.
  destruct (decide (length columns ≤ 3 * (ncols data / 3))); cbn [snd].
  - split; [|done]. split; [lia|done].
  - split; [|done]. split; [done|lia].
Qed.

(** * The further properties at concrete inputs *)

Lemma well_shaped_example_rescaled : well_shaped example_rescaled.
Proof. split; [simpl; lia|]. split; [by repeat constructor|done]. Qed.

Lemma well_shaped_example_relabelled : well_shaped example_relabelled.
Proof. split; [simpl; lia|]. split; [by repeat constructor|done]. Qed.

Lemma product_int_example_twice : product_int 4 (Finite 2) = inr 8%Z.
Proof. apply product_int_IZR; [done|done|simpl; lra]. Qed.

Lemma product_int_example_eighth : product_int 4 (Finite (1 / 8)) = inr 0%Z.
Proof.
  rewrite product_int_representable; [|done|].
  - f_equal. rewrite trunc_nonneg by (simpl; lra).
    symmetry. apply Int_part_spec. simpl. lra.
  - exists 1%Z, (-1)%Z. split; [lia|]. split; [done|].
    change (-1)%Z with (Z.opp 1). rewrite pow2_neg by lia.
    change (2 ^ 1)%Z with 2%Z. simpl. lra.
Qed.

Lemma raises_exactly_on_narrow_matrix_witness :
  match product_int (length (rows label_only_example)) (Finite (1 / 2)) with
  | inl e =>
      split_and_preprocess 0 (Finite (1 / 2)) [Buf2 label_only_example]
      = ([Buf2 label_only_example], inl e)
      ∧ (e = OverflowError ∨ e = ValueError)
  | inr _ =>
      match (split_and_preprocess 0 (Finite (1 / 2))
               [Buf2 label_only_example]).2 with
      | inl e => e = IndexError ∧ ncols label_only_example < 2
      | inr _ => 2 ≤ ncols label_only_example
      end
  end.
Proof.
  apply (raises_exactly_on_narrow_matrix [Buf2 label_only_example] 0
           label_only_example (Finite (1 / 2))).
  reflexivity.
Defined.

Lemma outputs_partition_the_rows_witness :
  well_shaped example
  ∧ statistics (split_and_preprocess_body 0 (Finite (1 / 2)) [Buf2 example])
    = Some (2%Z, [Some 0%R; Some 2%R], [Some 1%R; Some 1%R])
  ∧ ∃ X l Y l',
      returned (split_and_preprocess 0 (Finite (1 / 2)) [Buf2 example])
      = Some (X, l, Y, l')
      ∧ l ++ l' = map (λ row, default None (last row)) (rows example)
      ∧ rows X ++ rows Y
        = map (λ row, zip_with xdiv
                        (zip_with xsub (removelast row) [Some 0%R; Some 2%R])
                        [Some 1%R; Some 1%R])
            (rows example).
Proof.
  split; [apply well_shaped_example|]. split; [apply statistics_example|].
  apply (outputs_partition_the_rows [Buf2 example] 0 example (Finite (1 / 2)) 2%Z).
  - reflexivity.
  - apply well_shaped_example.
  - apply statistics_example.
Defined.

Lemma fraction_at_least_one_witness :
  well_shaped example ∧ (1 <= 2)%R
  ∧ ∃ X l Y l',
      returned (split_and_preprocess 0 (Finite 2) [Buf2 example])
      = Some (X, l, Y, l')
      ∧ length (rows X) = length (rows example)
      ∧ length l = length (rows example)
      ∧ rows Y = [] ∧ l' = [].
Proof.
  split; [apply well_shaped_example|]. split; [lra|].
  apply (fraction_at_least_one [Buf2 example] 0 example 2 8%Z
           (mean_values example 8) (sigma_values example 8)).
  - reflexivity.
  - apply well_shaped_example.
  - reflexivity.
  - lra.
  - apply (statistics_run [Buf2 example] 0 example (Finite 2) 8 eq_refl
             product_int_example_twice).
    simpl. lia.
Defined.

Lemma negative_fraction_witness :
  well_shaped example ∧ (-1 <= -1 / 4 < 0)%R
  ∧ ∃ sp mu sg X l Y l',
      statistics (split_and_preprocess_body 0 (Finite (-1 / 4)) [Buf2 example])
      = Some (sp, mu, sg)
      ∧ returned (split_and_preprocess 0 (Finite (-1 / 4)) [Buf2 example])
        = Some (X, l, Y, l')
      ∧ (sp ≤ 0)%Z
      ∧ length (rows X)
        = (if decide (sp = 0%Z) then 0
           else length (rows example)
                - Z.to_nat (- sp) `min` length (rows example))
      ∧ length (rows X) + length (rows Y) = length (rows example).
Proof.
  split; [apply well_shaped_example|]. split; [lra|].
  apply (negative_fraction [Buf2 example] 0 example (-1 / 4)).
  - reflexivity.
  - apply well_shaped_example.
  - lra.
Defined.

Lemma default_fraction_sizes_witness :
  well_shaped example
  ∧ ∃ X l Y l',
      returned (split_and_preprocess_default 0 [Buf2 example])
      = Some (X, l, Y, l')
      ∧ length (rows X) = 3 * length (rows example) / 4
      ∧ length (rows Y) = length (rows example) - 3 * length (rows example) / 4.
Proof.
  split; [apply well_shaped_example|].
  apply (default_fraction_sizes [Buf2 example] 0 example).
  - reflexivity.
  - apply well_shaped_example.
  - reflexivity.
Defined.

Lemma empty_training_partition_witness :
  well_shaped example
  ∧ ∃ X l Y l',
      returned (split_and_preprocess 0 (Finite (1 / 8)) [Buf2 example])
      = Some (X, l, Y, l')
      ∧ rows X = [] ∧ l = []
      ∧ ∀ j, 1 ≤ j → j < ncols example - 1 →
          mean_values example 0 !! j = Some None
          ∧ sigma_values example 0 !! j = Some None
          ∧ column j (rows Y) = replicate (length (rows example)) None.
Proof.
  split; [apply well_shaped_example|].
  apply (empty_training_partition [Buf2 example] 0 example (Finite (1 / 8))).
  - reflexivity.
  - apply well_shaped_example.
  - apply (statistics_run [Buf2 example] 0 example (Finite (1 / 8)) 0 eq_refl
             product_int_example_eighth).
    simpl. lia.
Defined.

Lemma degenerate_sigma_spoils_column_witness :
  well_shaped constant_example
  ∧ statistics
      (split_and_preprocess_body 0 (Finite (1 / 2)) [Buf2 constant_example])
    = Some (2%Z, [Some 0%R; Some 1%R], [Some 1%R; Some 0%R])
  ∧ ∃ X l Y l',
      returned (split_and_preprocess 0 (Finite (1 / 2)) [Buf2 constant_example])
      = Some (X, l, Y, l')
      ∧ column 1 (rows X) = replicate (length (rows X)) None
      ∧ column 1 (rows Y) = replicate (length (rows Y)) None.
Proof.
  split; [apply well_shaped_constant_example|].
  split; [apply statistics_constant_example|].
  apply (degenerate_sigma_spoils_column [Buf2 constant_example] 0
           constant_example (Finite (1 / 2)) 1 2%Z [Some 0%R; Some 1%R]
           [Some 1%R; Some 0%R] (Some 0%R)).
  - reflexivity.
  - apply well_shaped_constant_example.
  - lia.
  - apply statistics_constant_example.
  - reflexivity.
  - right. reflexivity.
Defined.

Lemma zero_sigma_iff_constant_witness :
  well_shaped constant_example
  ∧ statistics
      (split_and_preprocess_body 0 (Finite (1 / 2)) [Buf2 constant_example])
    = Some (2%Z, [Some 0%R; Some 1%R], [Some 1%R; Some 0%R])
  ∧ ([Some 1%R; Some 0%R] !! 1 = Some (Some 0%R)
     ↔ ∃ v k, 1 ≤ k
              ∧ column 1 (take (clamp (length (rows constant_example)) 2)
                            (rows constant_example))
                = replicate k (Some v)).
Proof.
  split; [apply well_shaped_constant_example|].
  split; [apply statistics_constant_example|].
  apply (zero_sigma_iff_constant [Buf2 constant_example] 0 constant_example
           (Finite (1 / 2)) 1 2%Z [Some 0%R; Some 1%R] [Some 1%R; Some 0%R]).
  - reflexivity.
  - apply well_shaped_constant_example.
  - lia.
  - simpl. lia.
  - apply statistics_constant_example.
Defined.

Lemma column_example_rescaled :
  column 1 (rows example_rescaled)
  = map (λ v, xadd (xmul (Some 2%R) v) (Some 1%R)) (column 1 (rows example)).
Proof. cbn. repeat (f_equal; try lra). Qed.

Lemma normalization_affine_invariant_witness :
  well_shaped example ∧ well_shaped example_rescaled ∧ (0 < 2)%R
  ∧ column 1 (rows example_rescaled)
    = map (λ v, xadd (xmul (Some 2%R) v) (Some 1%R)) (column 1 (rows example))
  ∧ ∃ X1 l1 Y1 l1' X2 l2 Y2 l2',
      returned (split_and_preprocess 0 (Finite (1 / 2)) [Buf2 example])
      = Some (X1, l1, Y1, l1')
      ∧ returned (split_and_preprocess 0 (Finite (1 / 2)) [Buf2 example_rescaled])
        = Some (X2, l2, Y2, l2')
      ∧ column 1 (rows X2) = column 1 (rows X1)
      ∧ column 1 (rows Y2) = column 1 (rows Y1).
Proof.
  split; [apply well_shaped_example|].
  split; [apply well_shaped_example_rescaled|]. split; [lra|].
  split; [apply column_example_rescaled|].
  apply (normalization_affine_invariant [Buf2 example] 0 example
           [Buf2 example_rescaled] 0 example_rescaled (Finite (1 / 2)) 1 2 1
           2%Z [Some 0%R; Some 2%R] [Some 1%R; Some 1%R]).
  - reflexivity.
  - reflexivity.
  - apply well_shaped_example.
  - apply well_shaped_example_rescaled.
  - reflexivity.
  - lia.
  - simpl. lia.
  - lra.
  - apply column_example_rescaled.
  - apply statistics_example.
Defined.

Lemma features_ignore_labels_witness :
  well_shaped example ∧ well_shaped example_relabelled
  ∧ map (λ row, removelast row) (rows example)
    = map (λ row, removelast row) (rows example_relabelled)
  ∧ statistics
      (split_and_preprocess_body 0 (Finite (1 / 2)) [Buf2 example_relabelled])
    = Some (2%Z, [Some 0%R; Some 2%R], [Some 1%R; Some 1%R])
  ∧ ∃ X Y l1 l1' l2 l2',
      returned (split_and_preprocess 0 (Finite (1 / 2)) [Buf2 example])
      = Some (X, l1, Y, l1')
      ∧ returned (split_and_preprocess 0 (Finite (1 / 2)) [Buf2 example_relabelled])
        = Some (X, l2, Y, l2').
Proof.
  split; [apply well_shaped_example|].
  split; [apply well_shaped_example_relabelled|]. split; [reflexivity|].
  apply (features_ignore_labels [Buf2 example] 0 example
           [Buf2 example_relabelled] 0 example_relabelled (Finite (1 / 2))).
  - reflexivity.
  - reflexivity.
  - apply well_shaped_example.
  - apply well_shaped_example_relabelled.
  - reflexivity.
  - reflexivity.
  - apply statistics_example.
Defined.

Lemma labels_are_views_witness :
  well_shaped example
  ∧ statistics (split_and_preprocess_body 0 (Finite (1 / 2)) [Buf2 example])
    = Some (2%Z, [Some 0%R; Some 2%R], [Some 1%R; Some 1%R])
  ∧ 1 < clamp (length (rows example)) 2
  ∧ ∃ σ' train_data train_labels test_data test_labels σ'',
      split_and_preprocess 0 (Finite (1 / 2)) [Buf2 example]
      = (σ', inr (train_data, train_labels, test_data, test_labels))
      ∧ setitem train_labels (Z.of_nat 1) (Some 9%R) σ' = (σ'', inr tt)
      ∧ read2 (Own2 0) σ''
        = Some (Mat (ncols example)
                  (alter (λ row, <[ncols example - 1 := Some 9%R]> row) 1
                     (rows example)))
      ∧ read2 train_data σ'' = read2 train_data σ'
      ∧ read2 test_data σ'' = read2 test_data σ'.
Proof.
  split; [apply well_shaped_example|]. split; [apply statistics_example|].
  assert (H : 1 < clamp (length (rows example)) 2)
    by (unfold clamp; simpl; lia).
  split; [exact H|].
  apply (labels_are_views [Buf2 example] 0 example (Finite (1 / 2)) 2%Z
           [Some 0%R; Some 2%R] [Some 1%R; Some 1%R] 1 (Some 9%R)).
  - reflexivity.
  - apply well_shaped_example.
  - apply statistics_example.
  - exact H.
Defined.

Lemma on_epoch_end_returns_iff_witness :
  ((TrainingHistory.on_epoch_end (λ _ _ : nat, inl AttributeError) 0
      ({["val_loss" := 7]} : gmap string nat)
      ({["loss" := TrainingHistory.List [3]]}
         : gmap string (TrainingHistory.pyval nat))).2 = inr tt
   ↔ (is_Some (({["val_loss" := 7]} : gmap string nat) !! "loss")
      → ∃ l, ({["loss" := TrainingHistory.List [3]]}
                : gmap string (TrainingHistory.pyval nat)) !! "loss"
             = Some (TrainingHistory.List l))
     ∧ (is_Some (({["val_loss" := 7]} : gmap string nat) !! "val_loss")
        → ∃ l, ({["loss" := TrainingHistory.List [3]]}
                  : gmap string (TrainingHistory.pyval nat)) !! "validation_loss"
               = Some (TrainingHistory.List l)))
  ∧ ∀ e, (TrainingHistory.on_epoch_end (λ _ _ : nat, inl AttributeError) 0
            ({["val_loss" := 7]} : gmap string nat)
            ({["loss" := TrainingHistory.List [3]]}
               : gmap string (TrainingHistory.pyval nat))).2 = inl e
         → e = AttributeError.
Proof.
  apply (on_epoch_end_returns_iff (V:=nat)).
  - intros v. by rewrite lookup_singleton_eq.
  - intros v. by rewrite lookup_singleton_ne.
Defined.

Lemma on_epoch_end_not_atomic_witness :
  TrainingHistory.on_epoch_end (λ _ _ : nat, inl AttributeError) 0
    (<["val_loss" := 7]> {["loss" := 5]} : gmap string nat)
    ({["loss" := TrainingHistory.List [3]]}
       : gmap string (TrainingHistory.pyval nat))
  = (<["loss" := TrainingHistory.List ([3] ++ [5])]>
       {["loss" := TrainingHistory.List [3]]}, inl AttributeError).
Proof.
  apply (on_epoch_end_not_atomic (V:=nat) _ _ 0 _ [3] 5 7).
  - apply lookup_singleton_eq.
  - by apply lookup_singleton_ne.
  - rewrite lookup_insert_ne by done. apply lookup_singleton_eq.
  - apply lookup_insert_eq.
Defined.

Lemma history_is_append_only_witness :
  ∃ l', (TrainingHistory.epochs (λ _ _ : nat, inl AttributeError)
           [(0%Z, ({["loss" := 5]} : gmap string nat)); (1%Z, {["loss" := 4]})]
           ({["loss" := TrainingHistory.List [3]]}
              : gmap string (TrainingHistory.pyval nat))).1 !! "loss"
        = Some (TrainingHistory.List l')
        ∧ [3] `prefix_of` l'.
Proof.
  apply (history_is_append_only (V:=nat)). apply lookup_singleton_eq.
Defined.

Lemma plot_history_without_loss_witness :
  plot_history (λ _ : nat, None) ∅ []
  = ([LSubplots 1 1 (16, 5); LSetXLabel "epoch"; LSetYLabel "loss"],
     inl AttributeError).
Proof.
  apply (plot_history_without_loss (V:=nat) (λ _, None) ∅ []).
  apply lookup_empty.
Defined.

Lemma plot_bins_outcome_witness :
  3 ≤ ncols example
  ∧ plot_bins (λ _, true) example ["sex"; "length"; "rings"; "age"] []
    = ([] ++ BSubplots 3 (ncols example / 3) (16, 8)
          :: histograms example
               (take (3 * (ncols example / 3))
                  (enumerate 0 ["sex"; "length"; "rings"; "age"])),
       inl IndexError).
Proof.
  split; [simpl; lia|].
  apply (plot_bins_outcome (λ _, true) example
           ["sex"; "length"; "rings"; "age"] []).
  - simpl. lia.
  - apply well_shaped_example.
  - apply finite_example.
Defined.

Lemma plot_bins_needs_multiple_of_three_witness :
  3 ≤ ncols example
  ∧ ((plot_bins (λ _, true) example ["sex"; "length"; "rings"] []).2 = inr tt
     ↔ ncols example mod 3 = 0)
  ∧ ((plot_bins (λ _, true) example ["sex"; "length"; "rings"] []).2 ≠ inr tt
     → (plot_bins (λ _, true) example ["sex"; "length"; "rings"] []).2
       = inl IndexError).
Proof.
  split; [simpl; lia|].
  apply (plot_bins_needs_multiple_of_three (λ _, true) example
           ["sex"; "length"; "rings"] []).
  - simpl. lia.
  - apply well_shaped_example.
  - apply finite_example.
  - reflexivity.
Defined.
